(** * ninja/operation.py: the operation pipeline and the per-path dispatcher

    A shallow embedding of [Operation], [AsyncOperation] and [PathView].
    Python objects are values of the inductive type [value]; the request
    object, the dictionaries that are shared by reference and the record of
    the calls made to foreign code live in an explicit [state] that every
    method threads; a raised exception is the [Raise] outcome of the
    state-and-error monad [M]. *)

From stdpp Require Import gmap strings list fin_maps.

Set Warnings "-register-all".
Open Scope Z_scope.
Open Scope string_scope.
Open Scope list_scope.

(** ** Python values *)

Inductive value : Type :=
| VNone
| NOT_SET                                   (* ninja.constants.NOT_SET *)
| VInt (n : Z)
| VStr (s : string)
| VTuple (items : list value)
| VList (items : list value)
| VDict (items : list (string * value))
| VCallable (f : nat)                       (* a function object, by name *)
| VResponse (status : value) (data : value) (* ninja.responses.Response *)
| VHttpResponseNotAllowed (permitted_methods : gset string) (content : string)
| VHttpResponse (status_code : Z) (content : string)
| VCoroutine (f : nat).       (* the coroutine of AsyncOperation.run, not started *)

(** [bool(v)], as taken by [if v:], [and] and [or]. *)
Definition truthy (v : value) : bool :=
  match v with
  | VNone => false
  | VInt n => negb (Z.eqb n 0)
  | VStr s => negb (String.eqb s EmptyString)
  | VTuple items | VList items => negb (Nat.eqb (length items) 0)
  | VDict items => negb (Nat.eqb (length items) 0)
  | _ => true
  end.

Definition is_None (v : value) : bool :=
  match v with VNone => true | _ => false end.

(** [isinstance(v, HttpResponse)]: [Response] derives from it. *)
Definition isinstance_HttpResponse (v : value) : bool :=
  match v with
  | VResponse _ _ | VHttpResponseNotAllowed _ _ | VHttpResponse _ _ => true
  | _ => false
  end.

(** [isinstance(v, Sequence)]: lists, tuples and strings. *)
Definition isinstance_Sequence (v : value) : bool :=
  match v with
  | VStr _ | VTuple _ | VList _ => true
  | _ => false
  end.

Fixpoint chars (s : string) : list value :=
  match s with
  | EmptyString => []
  | String c rest => VStr (String c EmptyString) :: chars rest
  end.

(** The items a [for] loop over [v] visits; [None] when [v] is not iterable. *)
Definition iter_items (v : value) : option (list value) :=
  match v with
  | VTuple items | VList items => Some items
  | VStr s => Some (chars s)
  | VDict items => Some (map (fun kv => VStr kv.1) items)
  | _ => None
  end.

(** Whether [v] can be looked up in a dictionary: lists and dictionaries
    cannot, a tuple can when all its items can. *)
Fixpoint hashable (v : value) : bool :=
  match v with
  | VList _ | VDict _ => false
  | VTuple items => forallb hashable items
  | _ => true
  end.

(** Modelled from the spec: ninja.responses.Response, the default response
    constructor; it keeps the payload and the status it is given, and the
    status is 200 when none is given. *)
Definition Response (data : value) (status : option value) : value :=
  VResponse (default (VInt 200) status) data.

(** ** Response declarations

    What [response=] may receive and what [self.response_model] may hold:
    nothing, a declared type, a wrapper schema around a declaration, or a
    dictionary object keyed by status code.  The dictionary is a reference:
    the caller and the operation share one object. *)

Inductive decl : Type :=
| DNone
| DType (t : nat)
| NinjaResponseSchema (response : decl)
| DDict (ref : nat).

Definition isinstance_dict (d : decl) : bool :=
  match d with DDict _ => true | _ => false end.

Definition decl_is_None (d : decl) : bool :=
  match d with DNone => true | _ => false end.

(** ** Exceptions, requests, state *)

Inductive exn : Type :=
| ConfigError (status : value)
| TypeError (what : string)
| AttributeError (what : string)
| Exception (msg : string)
| Foreign (n : nat).                        (* raised by foreign code *)

Inductive result (A : Type) : Type :=
| Ok (a : A)
| Raise (e : exn).
Arguments Ok {A} a.
Arguments Raise {A} e.

Record request : Type := mkRequest {
  method : string;
  auth : option value;                      (* the [auth] attribute, once set *)
  payload : nat                             (* everything else, opaque *)
}.

(** The calls made to foreign code, in the order they are made. *)
Inductive event : Type :=
| EAuth (f : nat)                           (* an auth callback is called *)
| ECsrf (f : nat)                           (* check_csrf is called *)
| EResolve (source : string)                (* a model's resolve is called *)
| EView (f : nat) (kwargs : gmap string value).   (* the view is called *)

Record state : Type := mkState {
  req : request;
  heap : gmap nat (gmap Z decl);
  log : list event
}.

Definition M (A : Type) : Type := state -> result A * state.

Definition ret {A} (a : A) : M A := fun st => (Ok a, st).
Definition raise {A} (e : exn) : M A := fun st => (Raise e, st).
Definition bind {A B} (m : M A) (k : A -> M B) : M B :=
  fun st =>
    match m st with
    | (Ok a, st') => k a st'
    | (Raise e, st') => (Raise e, st')
    end.

Notation "x <- c1 ;; c2" := (bind c1 (fun x => c2))
  (at level 100, c1 at next level, right associativity).

Definition get_request : M request := fun st => (Ok (req st), st).
Definition set_request_auth (v : value) : M unit :=
  fun st =>
    (Ok tt, mkState (mkRequest (method (req st)) (Some v) (payload (req st)))
                    (heap st) (log st)).
Definition emit (e : event) : M unit :=
  fun st => (Ok tt, mkState (req st) (heap st) (log st ++ [e])).
Definition deref (ref : nat) : M (gmap Z decl) :=
  fun st => (Ok (default ∅ (heap st !! ref)), st).
Definition store (ref : nat) (d : gmap Z decl) : M unit :=
  fun st => (Ok tt, mkState (req st) (<[ref := d]> (heap st)) (log st)).

(** ** Parameter models

    [model.resolve(request, path_params)] gives the arguments it resolved,
    or fails with pydantic.ValidationError or ninja.errors.InvalidInput,
    each carrying the field errors that [e.errors()] lists. *)

Record error_item : Type := mkError {
  loc : list value;
  msg : string;
  type : string
}.

Inductive resolved : Type :=
| Resolved (data : gmap string value)
| ValidationError (errors : list error_item)
| InvalidInput (errors : list error_item).

Record ParamModel : Type := mkParamModel {
  _in : string;
  resolve : request -> gmap string value -> resolved
}.

(** An error item as it is serialised in a response body. *)
Definition error_value (i : error_item) : value :=
  VDict [("loc", VTuple (loc i)); ("msg", VStr (msg i)); ("type", VStr (type i))].

(** ** The application object and the operation object *)

Record NinjaAPI : Type := mkApi {
  api_auth : value;
  csrf : bool
}.

Record Operation : Type := mkOperation {
  is_async : bool;
  path : string;
  methods : list string;
  view_func : nat;
  api : option NinjaAPI;
  auth_param : value;
  auth_callbacks : value;
  models : list ParamModel;
  response_model : decl
}.

Definition set_auth_callbacks (self : Operation) (v : value) : Operation :=
  mkOperation (is_async self) (path self) (methods self) (view_func self)
    (api self) (auth_param self) v (models self) (response_model self).

Definition set_api (self : Operation) (a : NinjaAPI) : Operation :=
  mkOperation (is_async self) (path self) (methods self) (view_func self)
    (Some a) (auth_param self) (auth_callbacks self) (models self)
    (response_model self).

Definition set_is_async (self : Operation) (b : bool) : Operation :=
  mkOperation b (path self) (methods self) (view_func self)
    (api self) (auth_param self) (auth_callbacks self) (models self)
    (response_model self).

(** [auth is NOT_SET] and [auth == NOT_SET]: the sentinel is one object. *)
Definition is_NOT_SET (v : value) : bool :=
  match v with NOT_SET => true | _ => false end.

(** [_set_auth]: [isinstance(auth, Sequence) and auth or [auth]]. *)
Definition _set_auth (self : Operation) (auth : value) : Operation :=
  if negb (is_None auth) && negb (is_NOT_SET auth) then
    set_auth_callbacks self
      (if isinstance_Sequence auth && truthy auth then auth else VList [auth])
  else self.

Definition set_api_instance (self : Operation) (a : NinjaAPI) : Operation :=
  let self := set_api self a in
  if is_NOT_SET (auth_param self) && negb (is_NOT_SET (api_auth a)) then
    _set_auth self (api_auth a)
  else self.

(** [_create_response_model]: the wrapper schema of a declaration. *)
Definition _create_response_model (response_param : decl) : decl :=
  match response_param with
  | DNone => DNone
  | _ => NinjaResponseSchema response_param
  end.

(** [_create_response_model_multiple]: every entry of the dictionary behind
    [ref] is reassigned, one item after the other, and [ref] is returned. *)
Definition _create_response_model_multiple (ref : nat) : M decl :=
  response_param <- deref ref ;;
  _ <- store ref
         (foldl (fun d kv => <[kv.1 := _create_response_model kv.2]> d)
                response_param (map_to_list response_param)) ;;
  ret (DDict ref).

(** [allowed_methods.update(op.methods)] *)
Definition update (allowed_methods : gset string) (ms : list string) : gset string :=
  allowed_methods ∪ list_to_set ms.

(** [request.method in op.methods] *)
Definition contains (ms : list string) (m : string) : bool :=
  bool_decide (m ∈ ms).

(** ** The pipeline, over the foreign code it calls *)

Section Pipeline.

(** What calling function object [f] with the request and keyword arguments
    gives: views and authentication callbacks. *)
Variable call : nat -> request -> gmap string value -> result value.
(** ninja.utils.check_csrf *)
Variable check_csrf : request -> nat -> value.
(** The schema capability: [schema.from_orm(obj).dict()["response"]]. *)
Variable from_orm : decl -> value -> result value.
(** ninja.signature: [ViewSignature(path, view_func).models], [is_async]. *)
Variable signature_models : string -> nat -> list ParamModel.
Variable signature_is_async : nat -> bool.
(** The first two components of [django.VERSION]. *)
Variable django_VERSION : Z * Z.

Definition lift {A} (r : result A) : M A := fun st => (r, st).

(** [callback(request)] *)
Definition call_callback (callback : value) : M value :=
  match callback with
  | VCallable f =>
      request <- get_request ;;
      _ <- emit (EAuth f) ;;
      lift (call f request ∅)
  | _ => raise (TypeError "object is not callable")
  end.

Fixpoint _run_authentication_loop (callbacks : list value) : M value :=
  match callbacks with
  | [] => ret (Response (VDict [("detail", VStr "Unauthorized")]) (Some (VInt 401)))
  | callback :: rest =>
      result <- call_callback callback ;;
      if negb (is_None result) then
        _ <- set_request_auth result ;;
        ret VNone
      else _run_authentication_loop rest
  end.

Definition _run_authentication (self : Operation) : M value :=
  match iter_items (auth_callbacks self) with
  | Some callbacks => _run_authentication_loop callbacks
  | None => raise (TypeError "object is not iterable")
  end.

Definition _run_csrf (self : Operation) : M value :=
  match api self with
  | None => raise (AttributeError "'NoneType' object has no attribute 'csrf'")
  | Some a =>
      if csrf a then
        request <- get_request ;;
        _ <- emit (ECsrf (view_func self)) ;;
        let error := check_csrf request (view_func self) in
        if truthy error then ret error else ret VNone
      else ret VNone
  end.

Definition _run_checks (self : Operation) : M value :=
  if truthy (auth_callbacks self) then
    error <- _run_authentication self ;;
    if truthy error then ret error else _run_csrf self
  else _run_csrf self.

(** [i["loc"] = (model._in,) + i["loc"]] *)
Definition prefix_loc (model : ParamModel) (i : error_item) : error_item :=
  mkError (VStr (_in model) :: loc i) (msg i) (type i).

Definition model_resolve (model : ParamModel) (path_params : gmap string value)
  : M resolved :=
  request <- get_request ;;
  _ <- emit (EResolve (_in model)) ;;
  ret (resolve model request path_params).

Fixpoint _get_values_loop (ms : list ParamModel) (path_params : gmap string value)
    (values : gmap string value) (errors : list error_item)
  : M (gmap string value * list error_item) :=
  match ms with
  | [] => ret (values, errors)
  | model :: rest =>
      r <- model_resolve model path_params ;;
      match r with
      | Resolved data => _get_values_loop rest path_params (data ∪ values) errors
      | ValidationError es | InvalidInput es =>
          _get_values_loop rest path_params values
            (errors ++ map (prefix_loc model) es)
      end
  end.

Definition _get_values (self : Operation) (path_params : gmap string value)
  : M (gmap string value * list error_item) :=
  _get_values_loop (models self) path_params ∅ [].

(** [status not in response_model.keys()] and [response_model[status]]:
    the keys are integer status codes. *)
Definition lookup_status (status : value) (response_model : gmap Z decl)
  : M decl :=
  if negb (hashable status) then raise (TypeError "unhashable type")
  else match status with
       | VInt n =>
           match response_model !! n with
           | Some m => ret m
           | None => raise (ConfigError status)
           end
       | _ => raise (ConfigError status)
       end.

(** [response_model.from_orm(resp_object).dict()["response"]] *)
Definition shape (response_model : decl) (result : value) : M value :=
  match response_model with
  | DNone => raise (AttributeError "'NoneType' object has no attribute 'from_orm'")
  | DDict _ => raise (AttributeError "'dict' object has no attribute 'from_orm'")
  | _ => lift (from_orm response_model result)
  end.

Definition _create_response (self : Operation) (result : value) : M value :=
  if isinstance_HttpResponse result then ret result
  else if decl_is_None (response_model self) then ret (Response result None)
  else
    let status := VInt 200 in
    let response_model := response_model self in
    let '(status, result) :=
      match result with
      | VTuple [s; r] => (s, r)
      | _ => (status, result)
      end in
    response_model <-
      match response_model with
      | DDict ref =>
          d <- deref ref ;;
          lookup_status status d
      | _ => ret response_model
      end ;;
    result <- shape response_model result ;;
    ret (Response result (Some status)).

Definition call_view (self : Operation) (values : gmap string value) : M value :=
  request <- get_request ;;
  _ <- emit (EView (view_func self) values) ;;
  lift (call (view_func self) request values).

Definition errors_value (errors : list error_item) : value :=
  VList (map error_value errors).

(** [Operation.run] and [AsyncOperation.run]: the two bodies differ only in
    the [await] around the call of the view. *)
Definition run (self : Operation) (kw : gmap string value) : M value :=
  error <- _run_checks self ;;
  if truthy error then ret error
  else
    ve <- _get_values self kw ;;
    let '(values, errors) := ve in
    if negb (Nat.eqb (length errors) 0) then
      ret (Response (VDict [("detail", errors_value errors)]) (Some (VInt 422)))
    else
      result <- call_view self values ;;
      _create_response self result.

(** ** Construction *)

Definition set_models (self : Operation) (ms : list ParamModel) : Operation :=
  mkOperation (is_async self) (path self) (methods self) (view_func self)
    (api self) (auth_param self) (auth_callbacks self) ms (response_model self).

Definition set_response_model (self : Operation) (d : decl) : Operation :=
  mkOperation (is_async self) (path self) (methods self) (view_func self)
    (api self) (auth_param self) (auth_callbacks self) (models self) d.

(** [Operation.__init__] *)
Definition Operation_init (path : string) (methods : list string)
    (view_func : nat) (auth : value) (response : decl) : M Operation :=
  let self := mkOperation false path methods view_func None auth (VList []) [] DNone in
  let self := _set_auth self auth in
  let self := set_models self (signature_models path view_func) in
  response_model <-
    match response with
    | DDict ref => _create_response_model_multiple ref
    | _ => ret (_create_response_model response)
    end ;;
  ret (set_response_model self response_model).

(** [django.VERSION < (3, 1)] *)
Definition django_too_old : bool :=
  (django_VERSION.1 <? 3)%Z || ((django_VERSION.1 =? 3)%Z && (django_VERSION.2 <? 1)%Z).

(** [AsyncOperation.__init__] *)
Definition AsyncOperation_init (path : string) (methods : list string)
    (view_func : nat) (auth : value) (response : decl) : M Operation :=
  if django_too_old then
    raise (Exception "Async operations are supported only with Django 3.1+")
  else
    self <- Operation_init path methods view_func auth response ;;
    ret (set_is_async self true).

(** ** PathView *)

Record PathView : Type := mkPathView {
  operations : list Operation;
  pv_is_async : bool;                       (* [PathView.is_async] *)
  pv_api : option NinjaAPI                  (* [PathView.api] *)
}.

(** [PathView.__init__] *)
Definition PathView_init : PathView := mkPathView [] false None.

(** [PathView.add]: the path view is updated in place, so it is returned next
    to the outcome also when the constructor raises. *)
Definition add (self : PathView) (path : string) (methods : list string)
    (view_func : nat) (auth : value) (response : decl)
  : state -> (PathView * result Operation) * state :=
  fun st =>
    let '(self, made) :=
      if signature_is_async view_func then
        (mkPathView (operations self) true (pv_api self),
         AsyncOperation_init path methods view_func auth response st)
      else
        (self, Operation_init path methods view_func auth response st) in
    match made with
    | (Ok operation, st') =>
        ((mkPathView (operations self ++ [operation]) (pv_is_async self)
            (pv_api self), Ok operation), st')
    | (Raise e, st') => ((self, Raise e), st')
    end.

(** [PathView.set_api_instance] *)
Definition pv_set_api_instance (self : PathView) (a : NinjaAPI) : PathView :=
  mkPathView (map (fun op => set_api_instance op a) (operations self))
    (pv_is_async self) (Some a).

Inductive view : Type := the_sync_view | the_async_view.

(** [PathView.get_view]: the view and its [csrf_exempt] attribute. *)
Definition get_view (self : PathView) : view * bool :=
  (if pv_is_async self then the_async_view else the_sync_view, true).

Fixpoint _find_operation_loop (ops : list Operation) (m : string)
    (allowed_methods : gset string) : option Operation * value :=
  match ops with
  | [] => (None, VHttpResponseNotAllowed allowed_methods "Method not allowed")
  | op :: rest =>
      let allowed_methods := update allowed_methods (methods op) in
      if contains (methods op) m then (Some op, VNone)
      else _find_operation_loop rest m allowed_methods
  end.

Definition _find_operation (self : PathView) : M (option Operation * value) :=
  request <- get_request ;;
  ret (_find_operation_loop (operations self) (method request) ∅).

(** [operation.run(request, *a, **kw)]: [run] takes keyword arguments only. *)
(** [await operation.run(request, *a, **kw)] on an asynchronous operation:
    the body of [AsyncOperation.run] is run to its end. *)
Definition await_run (op : Operation) (a : list value) (kw : gmap string value)
  : M value :=
  match a with
  | [] => run op kw
  | _ => raise (TypeError "run() takes 2 positional arguments")
  end.

(** The plain call [operation.run(request, *a, **kw)].  [Operation.run] is
    a function: its body runs.  [AsyncOperation.run] is a coroutine
    function: the call binds the arguments and returns a coroutine that has
    not started, so no check, no model and no view is run; the coroutine is
    named after the view of its operation. *)
Definition operation_run (operation : option Operation) (a : list value)
    (kw : gmap string value) : M value :=
  match operation with
  | None => raise (AttributeError "'NoneType' object has no attribute 'run'")
  | Some op =>
      match a with
      | [] => if is_async op then ret (VCoroutine (view_func op)) else run op kw
      | _ => raise (TypeError "run() takes 2 positional arguments")
      end
  end.

Definition _sync_view (self : PathView) (a : list value) (kw : gmap string value)
  : M value :=
  oe <- _find_operation self ;;
  let '(operation, error) := oe in
  if truthy error then ret error
  else operation_run operation a kw.

(** [_async_view]: the coroutine of an asynchronous operation is awaited; a
    synchronous operation is called through [sync_to_async], which runs the
    plain call and awaits its value. *)
Definition _async_view (self : PathView) (a : list value) (kw : gmap string value)
  : M value :=
  oe <- _find_operation self ;;
  let '(operation, error) := oe in
  if truthy error then ret error
  else
    match operation with
    | Some op => if is_async op then await_run op a kw
                 else operation_run operation a kw
    | None => raise (AttributeError "'NoneType' object has no attribute 'is_async'")
    end.

End Pipeline.

(** ** The status and the payload of a handler's return value

    A return value that is a tuple of two items is read as
    [(status, payload)]; any other value is a payload with status 200. *)

Definition resolved_status (result : value) : value :=
  match result with
  | VTuple [s; _] => s
  | _ => VInt 200
  end.

Definition resolved_payload (result : value) : value :=
  match result with
  | VTuple [_; r] => r
  | _ => result
  end.

(** ** Sequences of method calls

    What a call of a method does to the object it is called on and to the
    state; a method that assigns no attribute of [self] leaves the object as
    it is. *)

Inductive op_call : Type :=
| Call_run (kw : gmap string value)
| Call_set_api_instance (a : NinjaAPI)
| Call__set_auth (auth : value)
| Call__run_checks
| Call__run_authentication
| Call__create_response (result : value)
| Call__get_values (path_params : gmap string value)
| Call__create_response_model_multiple (ref : nat)
| Call__create_response_model (response_param : decl).

Inductive pv_call : Type :=
| Call_add (path : string) (methods : list string) (view_func : nat)
    (auth : value) (response : decl)
| Call_pv_set_api_instance (a : NinjaAPI)
| Call_get_view
| Call__sync_view (a : list value) (kw : gmap string value)
| Call__async_view (a : list value) (kw : gmap string value)
| Call__find_operation
| Call_operation (i : nat) (c : op_call).   (* a call on the i-th operation *)

Section Calls.

Variable call : nat -> request -> gmap string value -> result value.
Variable check_csrf : request -> nat -> value.
Variable from_orm : decl -> value -> result value.
Variable signature_models : string -> nat -> list ParamModel.
Variable signature_is_async : nat -> bool.
Variable django_VERSION : Z * Z.

Definition op_step (s : Operation * state) (c : op_call) : Operation * state :=
  let '(self, st) := s in
  match c with
  | Call_run kw => (self, (run call check_csrf from_orm self kw st).2)
  | Call_set_api_instance a => (set_api_instance self a, st)
  | Call__set_auth auth => (_set_auth self auth, st)
  | Call__run_checks => (self, (_run_checks call check_csrf self st).2)
  | Call__run_authentication => (self, (_run_authentication call self st).2)
  | Call__create_response result =>
      (self, (_create_response from_orm self result st).2)
  | Call__get_values path_params => (self, (_get_values self path_params st).2)
  | Call__create_response_model_multiple ref =>
      (self, (_create_response_model_multiple ref st).2)
  | Call__create_response_model _ => (self, st)
  end.

Definition pv_step (s : PathView * state) (c : pv_call) : PathView * state :=
  let '(self, st) := s in
  match c with
  | Call_add path methods view_func auth response =>
      let r := add signature_models signature_is_async django_VERSION
                 self path methods view_func auth response st in
      (r.1.1, r.2)
  | Call_pv_set_api_instance a => (pv_set_api_instance self a, st)
  | Call_get_view => (self, st)
  | Call__sync_view a kw =>
      (self, (_sync_view call check_csrf from_orm self a kw st).2)
  | Call__async_view a kw =>
      (self, (_async_view call check_csrf from_orm self a kw st).2)
  | Call__find_operation => (self, (_find_operation self st).2)
  | Call_operation i c =>
      match operations self !! i with
      | Some operation =>
          let r := op_step (operation, st) c in
          (mkPathView (<[i := r.1]> (operations self)) (pv_is_async self)
             (pv_api self), r.2)
      | None => (self, st)
      end
  end.

End Calls.

(** Any owned operation that is asynchronous has the path view marked. *)
Definition marked (self : PathView) : Prop :=
  forall op, op ∈ operations self -> is_async op = true -> pv_is_async self = true.

(** ** What parameter resolution is expected to give *)

(** The errors one model contributes: none when it resolves, its field
    errors, each with the model's source tag put in front of its location,
    when it fails. *)
Definition model_errors (request : request) (path_params : gmap string value)
    (model : ParamModel) : list error_item :=
  match resolve model request path_params with
  | Resolved _ => []
  | ValidationError es | InvalidInput es =>
      map (fun i => mkError (VStr (_in model) :: loc i) (msg i) (type i)) es
  end.

(** The errors of all models, concatenated in declaration order. *)
Definition all_errors (request : request) (path_params : gmap string value)
    (ms : list ParamModel) : list error_item :=
  concat (map (model_errors request path_params) ms).

(** The arguments of the models that resolve, later models first. *)
Definition merged_values (request : request) (path_params : gmap string value)
    (ms : list ParamModel) : gmap string value :=
  foldl (fun values model =>
           match resolve model request path_params with
           | Resolved data => data ∪ values
           | _ => values
           end) ∅ ms.

Definition logged (st : state) (es : list event) : state :=
  mkState (req st) (heap st) (log st ++ es).

Definition authenticated (st : state) (v : value) : state :=
  mkState (mkRequest (method (req st)) (Some v) (payload (req st)))
    (heap st) (log st).

(** The methods some operation of the list accepts. *)
Definition all_methods (ops : list Operation) : gset string :=
  ⋃ (map (fun op => list_to_set (methods op)) ops).

(** The status code of a response object: django's HttpResponseNotAllowed
    has 405. *)
Definition status_code_of (v : value) : option value :=
  match v with
  | VResponse status _ => Some status
  | VHttpResponseNotAllowed _ _ => Some (VInt 405)
  | VHttpResponse n _ => Some (VInt n)
  | _ => None
  end.

(** ** What a method may do to the state *)

(** [m] changes the state by calls to foreign code only, all of kind [P]:
    the request and the dictionaries are left as they are. *)
Definition only_logs (P : event -> Prop) {A} (m : M A) : Prop :=
  forall st, exists es, (m st).2 = logged st es /\ Forall P es.

(** As [only_logs], but [m] may also assign [request.auth]. *)
Definition logs_and_auth (P : event -> Prop) {A} (m : M A) : Prop :=
  forall st, exists es,
    Forall P es
    /\ ((m st).2 = logged st es \/ exists v, (m st).2 = authenticated (logged st es) v).

(** The authentication stage of [_run_checks] lets the request through and
    leaves the state [st1]: there are no callbacks, or one of them accepts. *)
Definition auth_stage_passes
    (call : nat -> request -> gmap string value -> result value)
    (self : Operation) (st st1 : state) : Prop :=
  if truthy (auth_callbacks self) then
    exists error, _run_authentication call self st = (Ok error, st1)
                  /\ truthy error = false
  else st1 = st.

(** The handlers a sequence of calls registers, in order. *)
Definition added_views (cs : list pv_call) : list nat :=
  flat_map (fun c =>
              match c with
              | Call_add _ _ view_func _ _ => [view_func]
              | _ => []
              end) cs.

(** ** Concrete inputs *)

Module Ex.

(** Function objects: 0 and 5 answer [None]; 1 and 2 are authentication
    callbacks that accept; 3 and 4 are views. *)
Definition call (f : nat) (_ : request) (_ : gmap string value) : result value :=
  match f with
  | 1%nat => Ok (VStr "user1")
  | 2%nat => Ok (VStr "user2")
  | 3%nat => Ok (VTuple [VInt 201; VStr "created"])
  | 4%nat => Ok (VTuple [VInt 404; VStr "missing"])
  | _ => Ok VNone
  end.

Definition check_csrf (_ : request) (_ : nat) : value := VNone.

Definition from_orm (_ : decl) (v : value) : result value := Ok v.

Definition no_models (_ : string) (_ : nat) : list ParamModel := [].

Definition st : state := mkState (mkRequest "GET" None 0) ∅ [].

Definition the_api : NinjaAPI := mkApi NOT_SET false.

(** A GET operation bound to [the_api]. *)
Definition op (view_func : nat) (auth_callbacks : value)
    (models : list ParamModel) (response_model : decl) : Operation :=
  mkOperation false "/items" ["GET"] view_func (Some the_api) NOT_SET
    auth_callbacks models response_model.

(** A state whose dictionary 0 declares a schema for status 200 only. *)
Definition st_keyed : state :=
  mkState (mkRequest "GET" None 0)
    {[ 0%nat := {[ 200 := NinjaResponseSchema (DType 0) ]} ]} [].

(** A state whose dictionary 0 is a caller's declaration, not yet seen by
    any operation. *)
Definition st_raw : state :=
  mkState (mkRequest "GET" None 0)
    {[ 0%nat := {[ 200 := DType 0; 404 := DType 1 ]} ]} [].

(** View 7 is the one asynchronous function; Django is 3.1. *)
Definition is_async_view (f : nat) : bool := Nat.eqb f 7.
Definition django_VERSION : Z * Z := (3, 1).

Definition st_delete : state := mkState (mkRequest "DELETE" None 0) ∅ [].

(** Two operations on one path, both taking GET. *)
Definition two_ops : PathView :=
  mkPathView [op 3 (VList []) [] DNone;
              mkOperation false "/items" ["GET"; "POST"] 4 (Some the_api) NOT_SET
                (VList []) [] DNone]
    false (Some the_api).

(** The scenario of the specification: the path model rejects field "id",
    the query model resolves, the body model rejects field "name". *)
Definition path_model : ParamModel :=
  mkParamModel "path" (fun _ _ =>
    ValidationError [mkError [VStr "id"] "value is not a valid integer"
                       "type_error.integer"]).
Definition query_model : ParamModel :=
  mkParamModel "query" (fun _ _ => Resolved {[ "limit" := VInt 10 ]}).
Definition body_model : ParamModel :=
  mkParamModel "body" (fun _ _ =>
    InvalidInput [mkError [VStr "name"] "field required" "value_error.missing"]).

(** An application that enforces CSRF, and a check that rejects. *)
Definition csrf_api : NinjaAPI := mkApi NOT_SET true.
Definition csrf_rejects (_ : request) (_ : nat) : value :=
  VHttpResponse 403 "CSRF check Failed".

(** A caller's declaration with no body for status 204. *)
Definition st_204 : state :=
  mkState (mkRequest "DELETE" None 0)
    {[ 0%nat := {[ 200 := DType 0; 204 := DNone ]} ]} [].

(** Two models that both resolve the argument "limit". *)
Definition path_limit_model : ParamModel :=
  mkParamModel "path" (fun _ _ => Resolved {[ "limit" := VInt 5; "id" := VInt 1 ]}).

(** Applications with and without an auth of their own. *)
Definition api_with_auth : NinjaAPI := mkApi (VCallable 1) false.

(** A model that fails validation and reports no field error. *)
Definition failing_without_errors : ParamModel :=
  mkParamModel "body" (fun _ _ => InvalidInput []).

End Ex.

(** ** The monad *)

Lemma bind_ok {A B} (m : M A) (k : A -> M B) st a st' :
  m st = (Ok a, st') -> bind m k st = k a st'.
Proof. intros H. unfold bind. by rewrite H. Qed.

(** ** Response shaping *)

(** With a schema declared, shaping is: pick the schema (by status when the
    declaration is status-keyed), shape the payload, respond with the status. *)
Lemma _create_response_declared from_orm self result :
  isinstance_HttpResponse result = false ->
  decl_is_None (response_model self) = false ->
  _create_response from_orm self result =
    (response_model <-
       match response_model self with
       | DDict ref => d <- deref ref ;; lookup_status (resolved_status result) d
       | _ => ret (response_model self)
       end ;;
     r <- shape from_orm response_model (resolved_payload result) ;;
     ret (Response r (Some (resolved_status result)))).
Proof.
  intros Hn Hd. unfold _create_response. rewrite Hn, Hd. clear Hn Hd.
  destruct result as [| | | |[|s [|r [|]]]| | | | | | |]; reflexivity.
Qed.



(** C1, as stated, fails: with no response schema declared the tuple is not
    read as (status, payload); [(201, "created")] is wrapped whole and the
    response has the default status 200, not 201. *)
Lemma tuple_status_without_schema_counterexample :
  _create_response Ex.from_orm (Ex.op 3 (VList []) [] DNone)
    (VTuple [VInt 201; VStr "created"]) Ex.st
  = (Ok (VResponse (VInt 200) (VTuple [VInt 201; VStr "created"])), Ex.st)
  /\ _create_response Ex.from_orm (Ex.op 3 (VList []) [] DNone)
       (VTuple [VInt 201; VStr "created"]) Ex.st
     <> (Ok (Response (VStr "created") (Some (VInt 201))), Ex.st).
Proof. split; [reflexivity | discriminate]. Qed.

(** C1, amended: for a handler return value that is a tuple [(s, p)],
    - with a single response schema declared, only [p] is shaped and the
      response carries the shaped payload with status [s];
    - with a status-keyed declaration that has a schema for [s], only [p] is
      shaped, by that schema, and the response carries status [s];
    - with no response schema declared, the tuple is not taken apart: the
      whole tuple is wrapped by the default response constructor, with the
      default status 200. *)
Theorem tuple_status_and_payload from_orm (self : Operation) (s p : value) st :
  (decl_is_None (response_model self) = false ->
   isinstance_dict (response_model self) = false ->
   _create_response from_orm self (VTuple [s; p]) st =
     (r <- shape from_orm (response_model self) p ;; ret (VResponse s r)) st)
  /\ (forall ref d n m,
        response_model self = DDict ref -> heap st !! ref = Some d ->
        s = VInt n -> d !! n = Some m ->
        _create_response from_orm self (VTuple [s; p]) st =
          (r <- shape from_orm m p ;; ret (VResponse s r)) st)
  /\ (decl_is_None (response_model self) = true ->
      _create_response from_orm self (VTuple [s; p]) st =
        (Ok (VResponse (VInt 200) (VTuple [s; p])), st)).
Proof.
  split; [|split].
  - intros Hn Hd. rewrite _create_response_declared by done.
    destruct (response_model self); done.
  - intros ref d n m Hr Hh -> Hm. rewrite _create_response_declared.
    + rewrite Hr. unfold bind at 1. unfold bind at 1.
      unfold deref, lookup_status. rewrite Hh. simpl. by rewrite Hm.
    + done.
    + by rewrite Hr.
  - intros Hn. unfold _create_response. simpl. by rewrite Hn.
Qed.

Lemma tuple_status_and_payload_witness :
  _create_response Ex.from_orm
    (Ex.op 3 (VList []) [] (NinjaResponseSchema (DType 0)))
    (VTuple [VInt 201; VStr "created"]) Ex.st
  = (Ok (VResponse (VInt 201) (VStr "created")), Ex.st)
  /\ _create_response Ex.from_orm (Ex.op 3 (VList []) [] (DDict 0))
       (VTuple [VInt 200; VStr "created"]) Ex.st_keyed
     = (Ok (VResponse (VInt 200) (VStr "created")), Ex.st_keyed)
  /\ _create_response Ex.from_orm (Ex.op 3 (VList []) [] DNone)
       (VTuple [VInt 201; VStr "created"]) Ex.st
     = (Ok (VResponse (VInt 200) (VTuple [VInt 201; VStr "created"])), Ex.st).
Proof.
  split; [|split].
  - rewrite (proj1 (tuple_status_and_payload Ex.from_orm
               (Ex.op 3 (VList []) [] (NinjaResponseSchema (DType 0)))
               (VInt 201) (VStr "created") Ex.st)); reflexivity.
  - rewrite (proj1 (proj2 (tuple_status_and_payload Ex.from_orm
               (Ex.op 3 (VList []) [] (DDict 0))
               (VInt 200) (VStr "created") Ex.st_keyed))
               0%nat {[ 200 := NinjaResponseSchema (DType 0) ]} 200
               (NinjaResponseSchema (DType 0))); reflexivity.
  - apply (proj2 (proj2 (tuple_status_and_payload Ex.from_orm
               (Ex.op 3 (VList []) [] DNone)
               (VInt 201) (VStr "created") Ex.st))). reflexivity.
Defined.

(** Once the checks pass, no model reports an error and the view returns,
    what [run] gives is what shaping gives. *)
Lemma run_shapes_view_result call check_csrf from_orm self kw
    st error st1 values st2 result st3 :
  _run_checks call check_csrf self st = (Ok error, st1) ->
  truthy error = false ->
  _get_values self kw st1 = (Ok (values, []), st2) ->
  call_view call self values st2 = (Ok result, st3) ->
  run call check_csrf from_orm self kw st = _create_response from_orm self result st3.
Proof.
  intros Hc Ht Hv Hr. unfold run.
  rewrite (bind_ok _ _ _ _ _ Hc), Ht.
  rewrite (bind_ok _ _ _ _ _ Hv). simpl.
  by rewrite (bind_ok _ _ _ _ _ Hr).
Qed.

(** C6: under a status-keyed declaration, a handler result whose resolved
    status (200, or the first item of a returned pair) is not a key of the
    dictionary makes shaping raise; nothing is served: no response of
    another schema, none with status 200, none with an empty body.  The
    state is left as it was.  The exception is ConfigError for every status
    that can be looked up (every integer among them; a list cannot, and the
    lookup itself raises TypeError), and [run] lets it through to its
    caller. *)
Theorem undeclared_status_raises from_orm (self : Operation) (result : value)
    ref (d : gmap Z decl) st :
  isinstance_HttpResponse result = false ->
  response_model self = DDict ref ->
  heap st !! ref = Some d ->
  (forall n, resolved_status result = VInt n -> d !! n = None) ->
  exists e,
    (hashable (resolved_status result) = true ->
     e = ConfigError (resolved_status result))
    /\ _create_response from_orm self result st = (Raise e, st)
    /\ forall call check_csrf kw st0 error st1 values st2,
         _run_checks call check_csrf self st0 = (Ok error, st1) ->
         truthy error = false ->
         _get_values self kw st1 = (Ok (values, []), st2) ->
         call_view call self values st2 = (Ok result, st) ->
         run call check_csrf from_orm self kw st0 = (Raise e, st).
Proof.
  intros Hn Hr Hh Hk.
  assert (Hraise : exists e,
    (hashable (resolved_status result) = true ->
     e = ConfigError (resolved_status result))
    /\ _create_response from_orm self result st = (Raise e, st)).
  { rewrite _create_response_declared by (done || by rewrite Hr).
    rewrite Hr. unfold bind at 1. unfold bind at 1.
    unfold deref, lookup_status. rewrite Hh. simpl.
    destruct (hashable (resolved_status result)) eqn:Hhash; simpl.
    - exists (ConfigError (resolved_status result)). split; [done|].
      destruct (resolved_status result) eqn:Hs; try done.
      by rewrite (Hk n eq_refl).
    - by exists (TypeError "unhashable type"). }
  destruct Hraise as (e & He & Hc). exists e. split; [done|]. split; [done|].
  intros call check_csrf kw st0 error st1 values st2 H1 H2 H3 H4.
  by rewrite (run_shapes_view_result _ _ _ _ _ _ _ _ _ _ _ _ H1 H2 H3 H4).
Qed.

Lemma undeclared_status_raises_witness :
  run Ex.call Ex.check_csrf Ex.from_orm (Ex.op 4 (VList []) [] (DDict 0)) ∅
    Ex.st_keyed
  = (Raise (ConfigError (VInt 404)),
     mkState (req Ex.st_keyed) (heap Ex.st_keyed) [EView 4 ∅]).
Proof.
  destruct (undeclared_status_raises Ex.from_orm
              (Ex.op 4 (VList []) [] (DDict 0))
              (VTuple [VInt 404; VStr "missing"]) 0%nat
              {[ 200 := NinjaResponseSchema (DType 0) ]}
              (mkState (req Ex.st_keyed) (heap Ex.st_keyed) [EView 4 ∅]))
    as (e & He & _ & Hrun).
  - reflexivity.
  - reflexivity.
  - reflexivity.
  - intros n [= <-]. reflexivity.
  - rewrite (He eq_refl) in Hrun.
    apply (Hrun Ex.call Ex.check_csrf ∅ Ex.st_keyed VNone Ex.st_keyed ∅ Ex.st_keyed);
      reflexivity.
Defined.

(** ** Authentication *)

(** A sequence that has a first item is true as a condition. *)
Lemma iter_items_truthy v x l : iter_items v = Some (x :: l) -> truthy v = true.
Proof.
  destruct v as [| | |s|items|items|items| | | | |]; simpl; try done.
  - intros [= H]. destruct s; done.
  - by intros [= ->].
  - by intros [= ->].
  - destruct items; done.
Qed.

Lemma logged_nil st : logged st [] = st.
Proof. destruct st. unfold logged. simpl. by rewrite app_nil_r. Qed.

Lemma logged_logged st es es' : logged (logged st es) es' = logged st (es ++ es').
Proof. unfold logged. simpl. by rewrite app_assoc. Qed.

(** Callbacks that answer [None] are passed over, each one called once. *)
Lemma _run_authentication_loop_absent call fs rest st :
  Forall (fun g => call g (req st) ∅ = Ok VNone) fs ->
  _run_authentication_loop call (map VCallable fs ++ rest) st =
  _run_authentication_loop call rest (logged st (map EAuth fs)).
Proof.
  revert st. induction fs as [|g fs IH]; intros st Hfs.
  - simpl. by rewrite logged_nil.
  - inversion Hfs as [|? ? Hg Hrest]; subst. simpl.
    unfold bind at 1. unfold call_callback, bind, get_request, emit, lift.
    simpl. rewrite Hg. simpl.
    change (mkState (req st) (heap st) (log st ++ [EAuth g]))
      with (logged st [EAuth g]).
    rewrite IH by done. by rewrite logged_logged.
Qed.

Lemma is_None_false v : v <> VNone -> is_None v = false.
Proof. by destruct v. Qed.

(** C3: with callbacks [fs ++ f :: post] configured, where those of [fs]
    answer [None] on the request and [f] is the first to answer an identity
    [v], the callbacks of [fs] and then [f] are called, in that order and
    once each, [request.auth] becomes [v], no error is reported, and
    nothing of [post] is called (whatever [post] holds); the checks then go
    on to the CSRF stage. *)
Theorem first_identity_wins call check_csrf (self : Operation)
    (fs : list nat) (f : nat) (post : list value) (v : value) st :
  iter_items (auth_callbacks self) = Some (map VCallable fs ++ VCallable f :: post) ->
  Forall (fun g => call g (req st) ∅ = Ok VNone) fs ->
  call f (req st) ∅ = Ok v ->
  v <> VNone ->
  _run_authentication call self st =
    (Ok VNone, authenticated (logged st (map EAuth (fs ++ [f]))) v)
  /\ auth (req (authenticated (logged st (map EAuth (fs ++ [f]))) v)) = Some v
  /\ _run_checks call check_csrf self st =
       _run_csrf check_csrf self (authenticated (logged st (map EAuth (fs ++ [f]))) v).
Proof.
  intros Hit Hfs Hf Hv.
  assert (Hauth : _run_authentication call self st =
    (Ok VNone, authenticated (logged st (map EAuth (fs ++ [f]))) v)).
  { unfold _run_authentication. rewrite Hit.
    rewrite _run_authentication_loop_absent by done. simpl.
    unfold bind at 1. unfold call_callback, bind, get_request, emit, lift.
    simpl. rewrite Hf. simpl. rewrite (is_None_false v Hv). simpl.
    unfold set_request_auth, ret, authenticated, logged. simpl.
    by rewrite map_app, app_assoc. }
  split; [done|]. split; [done|].
  unfold _run_checks.
  assert (Ht : truthy (auth_callbacks self) = true).
  { destruct fs; simpl in Hit; by eapply iter_items_truthy. }
  rewrite Ht. by rewrite (bind_ok _ _ _ _ _ Hauth).
Qed.

Lemma first_identity_wins_witness :
  _run_authentication Ex.call
    (Ex.op 3 (VList [VCallable 0; VCallable 1; VCallable 2]) [] DNone) Ex.st
  = (Ok VNone,
     mkState (mkRequest "GET" (Some (VStr "user1")) 0) ∅ [EAuth 0; EAuth 1]).
Proof.
  apply (first_identity_wins Ex.call Ex.check_csrf
           (Ex.op 3 (VList [VCallable 0; VCallable 1; VCallable 2]) [] DNone)
           [0%nat] 1%nat [VCallable 2] (VStr "user1") Ex.st).
  - reflexivity.
  - repeat constructor.
  - reflexivity.
  - discriminate.
Defined.

(** C4: with callbacks [fs] configured (at least one), all answering [None]
    on the request, [run] gives exactly the response with status 401 and
    body [{"detail": "Unauthorized"}]; the calls made are those of the
    callbacks, each once and in order, and nothing else: no CSRF check, no
    model is resolved and the view is not called.  The request and the
    dictionaries are left as they were. *)
Theorem all_absent_unauthorized call check_csrf from_orm (self : Operation)
    (fs : list nat) (kw : gmap string value) st :
  iter_items (auth_callbacks self) = Some (map VCallable fs) ->
  fs <> [] ->
  Forall (fun g => call g (req st) ∅ = Ok VNone) fs ->
  run call check_csrf from_orm self kw st =
    (Ok (VResponse (VInt 401) (VDict [("detail", VStr "Unauthorized")])),
     logged st (map EAuth fs))
  /\ forall src f' kwargs,
       (EResolve src ∉ map EAuth fs) /\ (EView f' kwargs ∉ map EAuth fs).
Proof.
  intros Hit Hne Hfs. split.
  - unfold run, _run_checks.
    assert (Ht : truthy (auth_callbacks self) = true).
    { destruct fs; [done|]. by eapply iter_items_truthy. }
    rewrite Ht.
    assert (Hauth : _run_authentication call self st =
      (Ok (VResponse (VInt 401) (VDict [("detail", VStr "Unauthorized")])),
       logged st (map EAuth fs))).
    { unfold _run_authentication. rewrite Hit.
      rewrite <- (app_nil_r (map VCallable fs)).
      by rewrite _run_authentication_loop_absent. }
    unfold bind at 1. unfold bind at 1. by rewrite Hauth.
  - intros src f' kwargs.
    split; intros (g & Hg & _)%list_elem_of_fmap; discriminate.
Qed.

Lemma all_absent_unauthorized_witness :
  run Ex.call Ex.check_csrf Ex.from_orm
    (Ex.op 3 (VList [VCallable 0; VCallable 5]) [] DNone) ∅ Ex.st
  = (Ok (VResponse (VInt 401) (VDict [("detail", VStr "Unauthorized")])),
     mkState (mkRequest "GET" None 0) ∅ [EAuth 0; EAuth 5]).
Proof.
  apply (all_absent_unauthorized Ex.call Ex.check_csrf Ex.from_orm
           (Ex.op 3 (VList [VCallable 0; VCallable 5]) [] DNone)
           [0%nat; 5%nat] ∅ Ex.st).
  - reflexivity.
  - discriminate.
  - repeat constructor.
Defined.

(** ** Construction *)

(** The entries of a dictionary are reassigned one after the other; the
    outcome is the dictionary with every value wrapped. *)
Lemma foldl_insert_lookup {A} (f : A -> A) (l : list (Z * A)) (acc : gmap Z A) k :
  NoDup l.*1 ->
  foldl (fun d kv => <[kv.1 := f kv.2]> d) acc l !! k =
    match (list_to_map l : gmap Z A) !! k with
    | Some v => Some (f v)
    | None => acc !! k
    end.
Proof.
  revert acc. induction l as [|[k' v] l IH]; intros acc Hnd; simpl.
  - by rewrite lookup_empty.
  - apply NoDup_cons in Hnd as [Hk' Hnd]. rewrite IH by done.
    destruct (decide (k' = k)) as [->|Hne].
    + rewrite lookup_insert_eq.
      rewrite (not_elem_of_list_to_map_1 _ _ Hk').
      by rewrite lookup_insert_eq.
    + rewrite !lookup_insert_ne by done. done.
Qed.

Lemma rewrite_in_place_fmap (d : gmap Z decl) :
  foldl (fun d kv => <[kv.1 := _create_response_model kv.2]> d) d (map_to_list d)
  = _create_response_model <$> d.
Proof.
  apply map_eq. intros k.
  rewrite foldl_insert_lookup by apply NoDup_fst_map_to_list.
  rewrite list_to_map_to_list, lookup_fmap.
  by destruct (d !! k).
Qed.

Lemma _set_auth_fields self auth :
  is_async (_set_auth self auth) = is_async self
  /\ api (_set_auth self auth) = api self
  /\ auth_param (_set_auth self auth) = auth_param self
  /\ models (_set_auth self auth) = models self
  /\ response_model (_set_auth self auth) = response_model self.
Proof. unfold _set_auth. by destruct (_ && _). Qed.

(** What [Operation.__init__] builds, and the state it leaves. *)
Lemma Operation_init_eq signature_models path methods view_func auth response st :
  Operation_init signature_models path methods view_func auth response st =
  (Ok (set_response_model
         (set_models
            (_set_auth
               (mkOperation false path methods view_func None auth (VList []) [] DNone)
               auth)
            (signature_models path view_func))
         (match response with
          | DDict ref => DDict ref
          | _ => _create_response_model response
          end)),
   match response with
   | DDict ref =>
       mkState (req st)
         (<[ref := _create_response_model <$> default ∅ (heap st !! ref)]> (heap st))
         (log st)
   | _ => st
   end).
Proof.
  unfold Operation_init. destruct response as [|t|r|ref]; try reflexivity.
  unfold bind, _create_response_model_multiple, bind, deref, store, ret. simpl.
  by rewrite rewrite_in_place_fmap.
Qed.

(** C10: an empty sequence given as [auth] (an empty list, tuple or string)
    is stored as the one-item list [[auth]]: the callback list is not empty,
    so authentication is taken as configured, also after the operation is
    bound to an application; its single item is the empty sequence, which is
    not callable, so [run] raises TypeError on every request, before any
    other stage. *)
Theorem empty_sequence_auth call check_csrf from_orm signature_models
    path methods view_func (auth : value) response st :
  isinstance_Sequence auth = true ->
  truthy auth = false ->
  exists self st',
    Operation_init signature_models path methods view_func auth response st
      = (Ok self, st')
    /\ auth_callbacks self = VList [auth]
    /\ truthy (auth_callbacks self) = true
    /\ (forall a, auth_callbacks (set_api_instance self a) = VList [auth])
    /\ (forall kw st1,
          run call check_csrf from_orm self kw st1
            = (Raise (TypeError "object is not callable"), st1))
    /\ (forall a kw st1,
          run call check_csrf from_orm (set_api_instance self a) kw st1
            = (Raise (TypeError "object is not callable"), st1)).
Proof.
  intros Hseq Hfalse. rewrite Operation_init_eq. eexists _, _.
  split; [reflexivity|].
  assert (Hcb : forall self0, auth_callbacks (_set_auth self0 auth) = VList [auth]).
  { intros self0. unfold _set_auth. rewrite Hseq, Hfalse.
    by destruct auth. }
  assert (Hrun : forall self1 kw st1, auth_callbacks self1 = VList [auth] ->
    run call check_csrf from_orm self1 kw st1
      = (Raise (TypeError "object is not callable"), st1)).
  { intros self1 kw st1 H1. unfold run, _run_checks, _run_authentication.
    rewrite H1. simpl. unfold bind at 1. unfold bind at 1. unfold bind at 1.
    by destruct auth. }
  assert (Hapi : forall self1 a, auth_param self1 = auth ->
    auth_callbacks (set_api_instance self1 a) = auth_callbacks self1).
  { intros self1 a H1. unfold set_api_instance. simpl. rewrite H1.
    by destruct auth. }
  repeat split.
  - simpl. apply Hcb.
  - simpl. by rewrite Hcb.
  - intros a. rewrite Hapi; simpl; [apply Hcb|].
    by destruct (_set_auth_fields
      (mkOperation false path methods view_func None auth (VList []) [] DNone)
      auth) as (_ & _ & -> & _).
  - intros kw st1. apply Hrun. simpl. apply Hcb.
  - intros a kw st1. apply Hrun. rewrite Hapi; simpl; [apply Hcb|].
    by destruct (_set_auth_fields
      (mkOperation false path methods view_func None auth (VList []) [] DNone)
      auth) as (_ & _ & -> & _).
Qed.

Lemma empty_sequence_auth_witness :
  exists self st',
    Operation_init Ex.no_models "/items" ["GET"] 3%nat (VList []) DNone Ex.st
      = (Ok self, st')
    /\ auth_callbacks self = VList [VList []]
    /\ run Ex.call Ex.check_csrf Ex.from_orm self ∅ Ex.st
       = (Raise (TypeError "object is not callable"), Ex.st).
Proof.
  destruct (empty_sequence_auth Ex.call Ex.check_csrf Ex.from_orm Ex.no_models
              "/items" ["GET"] 3%nat (VList []) DNone Ex.st eq_refl eq_refl)
    as (self & st' & Hinit & Hcb & _ & _ & Hrun & _).
  exists self, st'. split; [exact Hinit|]. split; [exact Hcb|]. apply Hrun.
Defined.

(** With [auth=None] nothing is configured and the checks start at the CSRF
    stage. *)
Lemma no_auth_runs_no_authentication call check_csrf signature_models
    path methods view_func response st :
  exists self st',
    Operation_init signature_models path methods view_func VNone response st
      = (Ok self, st')
    /\ auth_callbacks self = VList []
    /\ forall st1, _run_checks call check_csrf self st1 = _run_csrf check_csrf self st1.
Proof.
  rewrite Operation_init_eq. eexists _, _. split; [reflexivity|]. done.
Qed.

Lemma wrapper_differs (m : decl) : NinjaResponseSchema m <> m.
Proof. induction m; congruence. Qed.

(** C9: constructing an operation with a status-keyed declaration, the
    dictionary object [ref] the caller passes, rewrites that object: after
    the constructor every value of the caller's dictionary is its wrapper
    schema, the operation stores the very same object (and
    [_create_response_model_multiple] returns it), no other object is
    created or changed, and the caller's dictionary is not what it was as
    soon as it had one entry other than [None]. *)
Theorem status_keyed_declaration_rewritten_in_place signature_models
    path methods view_func auth (ref : nat) (d : gmap Z decl) st :
  heap st !! ref = Some d ->
  exists self st',
    Operation_init signature_models path methods view_func auth (DDict ref) st
      = (Ok self, st')
    /\ response_model self = DDict ref
    /\ _create_response_model_multiple ref st = (Ok (DDict ref), st')
    /\ heap st' !! ref = Some (_create_response_model <$> d)
    /\ dom (heap st') = dom (heap st)
    /\ (forall r, r <> ref -> heap st' !! r = heap st !! r)
    /\ ((exists k m, d !! k = Some m /\ m <> DNone) ->
        heap st' !! ref <> heap st !! ref).
Proof.
  intros Hd. rewrite Operation_init_eq. eexists _, _.
  split; [reflexivity|]. simpl. rewrite Hd. simpl.
  split; [done|]. split.
  { unfold _create_response_model_multiple, bind, deref, store, ret. simpl.
    rewrite Hd. simpl. by rewrite rewrite_in_place_fmap. }
  split; [by rewrite lookup_insert_eq|]. split.
  { rewrite dom_insert_L. apply elem_of_dom_2 in Hd.
    apply subseteq_union_1_L. by apply singleton_subseteq_l. }
  split.
  { intros r Hr. by apply lookup_insert_ne. }
  intros (k & m & Hk & Hm). rewrite lookup_insert_eq. intros [= Heq].
  assert (Hk' : (_create_response_model <$> d) !! k = Some m) by by rewrite Heq.
  rewrite lookup_fmap, Hk in Hk'. simpl in Hk'.
  destruct m; try done; injection Hk' as Hk'; by eapply wrapper_differs.
Qed.

Lemma status_keyed_declaration_rewritten_in_place_witness :
  exists self st',
    Operation_init Ex.no_models "/items" ["GET"] 3%nat NOT_SET (DDict 0) Ex.st_raw
      = (Ok self, st')
    /\ response_model self = DDict 0
    /\ heap st' !! 0%nat
       = Some {[ 200 := NinjaResponseSchema (DType 0);
                 404 := NinjaResponseSchema (DType 1) ]}.
Proof.
  destruct (status_keyed_declaration_rewritten_in_place Ex.no_models
              "/items" ["GET"] 3%nat NOT_SET 0%nat
              {[ 200 := DType 0; 404 := DType 1 ]} Ex.st_raw eq_refl)
    as (self & st' & Hinit & Hrm & _ & Hheap & _).
  exists self, st'. split; [exact Hinit|]. split; [exact Hrm|].
  rewrite Hheap. reflexivity.
Defined.

(** ** Parameter resolution *)

Lemma _get_values_loop_eq ms path_params values errors st :
  _get_values_loop ms path_params values errors st =
  (Ok (foldl (fun values model =>
                match resolve model (req st) path_params with
                | Resolved data => data ∪ values
                | _ => values
                end) values ms,
       errors ++ all_errors (req st) path_params ms),
   logged st (map (fun model => EResolve (_in model)) ms)).
Proof.
  revert values errors st.
  induction ms as [|model ms IH]; intros values errors st.
  - simpl. unfold ret, all_errors. simpl. by rewrite app_nil_r, logged_nil.
  - simpl. unfold bind at 1. unfold model_resolve, bind, get_request, emit, ret.
    simpl.
    change (mkState (req st) (heap st) (log st ++ [EResolve (_in model)]))
      with (logged st [EResolve (_in model)]).
    unfold all_errors. simpl. fold (all_errors (req st) path_params ms).
    unfold model_errors at 1.
    destruct (resolve model (req st) path_params) as [data|es|es];
      rewrite IH, logged_logged; simpl; try done;
      by rewrite <- app_assoc.
Qed.

(** All models are tried, in declaration order, whatever each one answers. *)
Lemma _get_values_eq self path_params st :
  _get_values self path_params st =
  (Ok (merged_values (req st) path_params (models self),
       all_errors (req st) path_params (models self)),
   logged st (map (fun model => EResolve (_in model)) (models self))).
Proof. unfold _get_values. by rewrite _get_values_loop_eq. Qed.

Lemma all_errors_elem request path_params ms model i :
  model ∈ ms ->
  i ∈ model_errors request path_params model ->
  i ∈ all_errors request path_params ms.
Proof.
  intros Hm Hi. induction ms as [|model' ms IH].
  - by apply not_elem_of_nil in Hm.
  - unfold all_errors. simpl. apply elem_of_app.
    apply elem_of_cons in Hm as [<-|Hm]; [by left|]. right. by apply IH.
Qed.

(** C2, as stated, fails: a model that fails validation with an empty list
    of field errors adds nothing to the error list, [if errors:] finds the
    list empty, and [run] goes on to call the view and answers 200, not
    422. *)
Lemma validation_failure_without_errors_counterexample :
  resolve Ex.failing_without_errors (req Ex.st) ∅ = InvalidInput []
  /\ run Ex.call Ex.check_csrf Ex.from_orm
       (Ex.op 5 (VList []) [Ex.failing_without_errors] DNone) ∅ Ex.st
     = (Ok (VResponse (VInt 200) VNone),
        mkState (mkRequest "GET" None 0) ∅ [EResolve "body"; EView 5 ∅])
  /\ run Ex.call Ex.check_csrf Ex.from_orm
       (Ex.op 5 (VList []) [Ex.failing_without_errors] DNone) ∅ Ex.st
     <> (Ok (VResponse (VInt 422) (VDict [("detail", VList [])])),
         mkState (mkRequest "GET" None 0) ∅ [EResolve "body"]).
Proof. split; [reflexivity|]. split; [reflexivity | discriminate]. Qed.

(** C2, amended: when the checks have passed and at least one model fails
    validation reporting a field error [e], resolution does not stop at a
    failure: every model is tried once, in declaration order; the error list
    is the concatenation, in that order, of the errors of all failing
    models, each error's location prefixed with its own model's source tag,
    so every error of every failing model is in it; and [run] answers with
    status 422 and the body [{"detail": errors}] holding that whole list,
    without calling the view. *)
Theorem validation_errors_accumulate call check_csrf from_orm (self : Operation)
    (kw : gmap string value) st error st1
    (model : ParamModel) (e : error_item) (es : list error_item) :
  _run_checks call check_csrf self st = (Ok error, st1) ->
  truthy error = false ->
  model ∈ models self ->
  resolve model (req st1) kw = ValidationError (e :: es)
    \/ resolve model (req st1) kw = InvalidInput (e :: es) ->
  _get_values self kw st1 =
    (Ok (merged_values (req st1) kw (models self),
         all_errors (req st1) kw (models self)),
     logged st1 (map (fun model => EResolve (_in model)) (models self)))
  /\ (forall model' i, model' ∈ models self ->
        i ∈ model_errors (req st1) kw model' ->
        i ∈ all_errors (req st1) kw (models self))
  /\ run call check_csrf from_orm self kw st =
       (Ok (VResponse (VInt 422)
              (VDict [("detail", errors_value (all_errors (req st1) kw (models self)))])),
        logged st1 (map (fun model => EResolve (_in model)) (models self))).
Proof.
  intros Hc Ht Hm Hfail. split; [apply _get_values_eq|].
  split; [intros model' i; apply all_errors_elem|].
  unfold run. rewrite (bind_ok _ _ _ _ _ Hc), Ht.
  rewrite (bind_ok _ _ _ _ _ (_get_values_eq self kw st1)). simpl.
  assert (He : mkError (VStr (_in model) :: loc e) (msg e) (type e)
               ∈ all_errors (req st1) kw (models self)).
  { apply (all_errors_elem _ _ _ model); [done|]. unfold model_errors.
    destruct Hfail as [-> | ->]; simpl; apply list_elem_of_here. }
  destruct (all_errors (req st1) kw (models self)); [|done].
  by apply not_elem_of_nil in He.
Qed.

Lemma validation_errors_accumulate_witness :
  run Ex.call Ex.check_csrf Ex.from_orm
    (Ex.op 3 (VList []) [Ex.path_model; Ex.query_model; Ex.body_model] DNone)
    ∅ Ex.st
  = (Ok (VResponse (VInt 422)
           (VDict [("detail",
              VList [VDict [("loc", VTuple [VStr "path"; VStr "id"]);
                            ("msg", VStr "value is not a valid integer");
                            ("type", VStr "type_error.integer")];
                     VDict [("loc", VTuple [VStr "body"; VStr "name"]);
                            ("msg", VStr "field required");
                            ("type", VStr "value_error.missing")]])])),
     mkState (mkRequest "GET" None 0) ∅
       [EResolve "path"; EResolve "query"; EResolve "body"]).
Proof.
  apply (validation_errors_accumulate Ex.call Ex.check_csrf Ex.from_orm
           (Ex.op 3 (VList []) [Ex.path_model; Ex.query_model; Ex.body_model] DNone)
           ∅ Ex.st VNone Ex.st Ex.body_model
           (mkError [VStr "name"] "field required" "value_error.missing") []).
  - reflexivity.
  - reflexivity.
  - apply list_elem_of_further, list_elem_of_further, list_elem_of_here.
  - right. reflexivity.
Defined.

(** ** Dispatch *)

Lemma contains_true ms m : contains ms m = true <-> m ∈ ms.
Proof. unfold contains. apply bool_decide_eq_true. Qed.

Lemma contains_false ms m : contains ms m = false <-> m ∉ ms.
Proof. unfold contains. apply bool_decide_eq_false. Qed.

(** The scan passes over the operations that do not take the method. *)
Lemma _find_operation_loop_skip pre rest m allowed_methods :
  Forall (fun o => m ∉ methods o) pre ->
  _find_operation_loop (pre ++ rest) m allowed_methods =
  _find_operation_loop rest m (allowed_methods ∪ all_methods pre).
Proof.
  revert allowed_methods. induction pre as [|o pre IH]; intros acc Hpre.
  - unfold all_methods. simpl. by rewrite (right_id_L ∅ (∪)).
  - inversion Hpre as [|? ? Ho Hrest]; subst. simpl.
    apply contains_false in Ho. rewrite Ho. rewrite IH by done.
    unfold update, all_methods. simpl. by rewrite (assoc_L (∪)).
Qed.

Lemma all_methods_elem ops m :
  m ∈ all_methods ops <-> exists o, o ∈ ops /\ m ∈ methods o.
Proof.
  unfold all_methods. rewrite elem_of_union_list. split.
  - intros (X & HX & Hm). apply list_elem_of_fmap in HX as (o & -> & Ho).
    exists o. split; [done|]. by apply elem_of_list_to_set in Hm.
  - intros (o & Ho & Hm). exists (list_to_set (methods o)). split.
    + by apply (list_elem_of_fmap_2 (fun op => list_to_set (methods op))).
    + by apply elem_of_list_to_set.
Qed.

(** C5: on a request with method [m],
    - the operation found is the first, in registration order, whose method
      list has [m], also when later operations have [m] too; the
      asynchronous view runs that operation, and the synchronous view runs
      it when it is synchronous and hands back the coroutine of its [run],
      not started, when it is asynchronous;
    - when no operation has [m], what is found is the error response
      HttpResponseNotAllowed (status 405) whose permitted methods are the
      union of the method lists of all the operations of the path view, and
      both views return it. *)
Theorem dispatch_first_match_or_405 call check_csrf from_orm
    (self : PathView) (a : list value) (kw : gmap string value) st :
  (forall pre op post,
     operations self = pre ++ op :: post ->
     Forall (fun o => method (req st) ∉ methods o) pre ->
     method (req st) ∈ methods op ->
     _find_operation self st = (Ok (Some op, VNone), st)
     /\ (is_async op = false ->
         _sync_view call check_csrf from_orm self [] kw st
         = run call check_csrf from_orm op kw st)
     /\ (is_async op = true ->
         _sync_view call check_csrf from_orm self [] kw st
         = (Ok (VCoroutine (view_func op)), st))
     /\ _async_view call check_csrf from_orm self [] kw st
        = run call check_csrf from_orm op kw st)
  /\ (Forall (fun o => method (req st) ∉ methods o) (operations self) ->
      let error :=
        VHttpResponseNotAllowed (all_methods (operations self)) "Method not allowed" in
      _find_operation self st = (Ok (None, error), st)
      /\ status_code_of error = Some (VInt 405)
      /\ (forall m, m ∈ all_methods (operations self) <->
                    exists o, o ∈ operations self /\ m ∈ methods o)
      /\ _sync_view call check_csrf from_orm self a kw st = (Ok error, st)
      /\ _async_view call check_csrf from_orm self a kw st = (Ok error, st)).
Proof.
  split.
  - intros pre op post Hops Hpre Hop.
    assert (Hfind : _find_operation self st = (Ok (Some op, VNone), st)).
    { unfold _find_operation, bind, get_request, ret. rewrite Hops.
      rewrite _find_operation_loop_skip by done. simpl.
      apply contains_true in Hop. by rewrite Hop. }
    split; [done|]. split; [|split].
    + intros Hsync. unfold _sync_view. rewrite (bind_ok _ _ _ _ _ Hfind).
      simpl. by rewrite Hsync.
    + intros Hasync. unfold _sync_view. rewrite (bind_ok _ _ _ _ _ Hfind).
      simpl. by rewrite Hasync.
    + unfold _async_view. rewrite (bind_ok _ _ _ _ _ Hfind). simpl.
      by destruct (is_async op).
  - intros Hnone error.
    assert (Hfind : _find_operation self st = (Ok (None, error), st)).
    { unfold _find_operation, bind, get_request, ret.
      rewrite <- (app_nil_r (operations self)) at 1.
      rewrite _find_operation_loop_skip by done. simpl.
      by rewrite (left_id_L ∅ (∪)). }
    split; [done|]. split; [done|]. split; [apply all_methods_elem|]. split.
    + unfold _sync_view. by rewrite (bind_ok _ _ _ _ _ Hfind).
    + unfold _async_view. by rewrite (bind_ok _ _ _ _ _ Hfind).
Qed.

Lemma dispatch_first_match_or_405_witness :
  _find_operation Ex.two_ops Ex.st
    = (Ok (Some (Ex.op 3 (VList []) [] DNone), VNone), Ex.st)
  /\ _sync_view Ex.call Ex.check_csrf Ex.from_orm Ex.two_ops [] ∅ Ex.st
     = run Ex.call Ex.check_csrf Ex.from_orm (Ex.op 3 (VList []) [] DNone) ∅ Ex.st
  /\ _sync_view Ex.call Ex.check_csrf Ex.from_orm Ex.two_ops [] ∅ Ex.st_delete
     = (Ok (VHttpResponseNotAllowed {[ "GET"; "POST" ]} "Method not allowed"),
        Ex.st_delete).
Proof.
  split; [|split].
  - apply (proj1 (dispatch_first_match_or_405 Ex.call Ex.check_csrf Ex.from_orm
                    Ex.two_ops [] ∅ Ex.st)
             [] (Ex.op 3 (VList []) [] DNone)
             [mkOperation false "/items" ["GET"; "POST"] 4 (Some Ex.the_api)
                NOT_SET (VList []) [] DNone]).
    + reflexivity.
    + constructor.
    + apply contains_true. reflexivity.
  - refine (proj1 (proj2 (proj1 (dispatch_first_match_or_405 Ex.call
                    Ex.check_csrf Ex.from_orm Ex.two_ops [] ∅ Ex.st)
             [] (Ex.op 3 (VList []) [] DNone)
             [mkOperation false "/items" ["GET"; "POST"] 4 (Some Ex.the_api)
                NOT_SET (VList []) [] DNone] _ _ _)) _).
    + reflexivity.
    + constructor.
    + apply contains_true. reflexivity.
    + reflexivity.
  - apply (proj2 (dispatch_first_match_or_405 Ex.call Ex.check_csrf Ex.from_orm
                    Ex.two_ops [] ∅ Ex.st_delete)).
    repeat constructor; apply contains_false; reflexivity.
Defined.

(** ** The asynchronous flags *)

Lemma set_api_instance_is_async self a :
  is_async (set_api_instance self a) = is_async self.
Proof.
  unfold set_api_instance. destruct (_ && _); [|done].
  by destruct (_set_auth_fields (set_api self a) (api_auth a)) as (-> & _).
Qed.

Lemma op_step_is_async call check_csrf from_orm s c :
  is_async (op_step call check_csrf from_orm s c).1 = is_async s.1.
Proof.
  destruct s as [self st].
  destruct c as [kw|a|au| | |result0|pp|ref|rp]; simpl; try done.
  - apply set_api_instance_is_async.
  - by destruct (_set_auth_fields self au) as (-> & _).
Qed.

Lemma Operation_init_is_async signature_models path methods view_func auth
    response st self st' :
  Operation_init signature_models path methods view_func auth response st
    = (Ok self, st') ->
  is_async self = false.
Proof.
  rewrite Operation_init_eq. intros [= <- _]. simpl.
  by destruct (_set_auth_fields
    (mkOperation false path methods view_func None auth (VList []) [] DNone)
    auth) as (-> & _).
Qed.

Lemma AsyncOperation_init_is_async signature_models django_VERSION
    path methods view_func auth response st self st' :
  AsyncOperation_init signature_models django_VERSION
    path methods view_func auth response st = (Ok self, st') ->
  is_async self = true.
Proof.
  unfold AsyncOperation_init. destruct (django_too_old _); [done|].
  unfold bind. rewrite Operation_init_eq. by intros [= <- _].
Qed.

Section Flags.

Variable call : nat -> request -> gmap string value -> result value.
Variable check_csrf : request -> nat -> value.
Variable from_orm : decl -> value -> result value.
Variable signature_models : string -> nat -> list ParamModel.
Variable signature_is_async : nat -> bool.
Variable django_VERSION : Z * Z.

Local Abbreviation step :=
  (pv_step call check_csrf from_orm signature_models signature_is_async
     django_VERSION).
Local Abbreviation add' := (add signature_models signature_is_async django_VERSION).

Lemma add_pv_is_async self path methods view_func auth response st :
  pv_is_async (add' self path methods view_func auth response st).1.1 =
  signature_is_async view_func || pv_is_async self.
Proof.
  unfold add. destruct (signature_is_async view_func); simpl.
  - by destruct (AsyncOperation_init _ _ _ _ _ _ _ _) as [[op|e] st'].
  - by destruct (Operation_init _ _ _ _ _ _ _) as [[op|e] st'].
Qed.

Lemma add_marked self path methods view_func auth response st :
  marked self -> marked (add' self path methods view_func auth response st).1.1.
Proof.
  intros Hm op Hop Ha. rewrite add_pv_is_async.
  destruct (signature_is_async view_func) eqn:Hs; [done|]. simpl.
  revert Hop. unfold add. rewrite Hs.
  destruct (Operation_init _ _ _ _ _ _ _) as [[new|e] st'] eqn:Hinit; simpl.
  - intros [Hop|Hop]%elem_of_app; [by apply (Hm op)|].
    apply list_elem_of_singleton in Hop as ->.
    apply Operation_init_is_async in Hinit. congruence.
  - intros Hop. by apply (Hm op).
Qed.

Lemma pv_step_flag s c :
  pv_is_async s.1 = true -> pv_is_async (step s c).1 = true.
Proof.
  destruct s as [self st]. simpl. intros Hf.
  destruct c as [p ms vf au rp|a| |a kw|a kw| |i c]; simpl; try done.
  - rewrite add_pv_is_async, Hf. apply orb_true_r.
  - by destruct (operations self !! i).
Qed.

Lemma pv_step_marked s c : marked s.1 -> marked (step s c).1.
Proof.
  destruct s as [self st]. simpl. intros Hm.
  destruct c as [p ms vf au rp|a| |a kw|a kw| |i c]; simpl; try done.
  - by apply add_marked.
  - intros op (o & -> & Ho)%list_elem_of_fmap. simpl.
    rewrite set_api_instance_is_async. by apply Hm.
  - destruct (operations self !! i) as [o|] eqn:Hi; [|done].
    intros op Hop Ha. simpl in Hop.
    apply list_elem_of_lookup in Hop as (j & Hj).
    destruct (decide (i = j)) as [<-|Hne].
    + rewrite list_lookup_insert_eq in Hj by (by eapply lookup_lt_Some).
      injection Hj as <-.
      apply (Hm o); [by eapply list_elem_of_lookup_2|].
      etrans; [|exact Ha]. symmetry.
      apply (op_step_is_async call check_csrf from_orm (o, st) c).
    + rewrite list_lookup_insert_ne in Hj by done.
      apply (Hm op); [|done]. by eapply list_elem_of_lookup_2.
Qed.

Lemma pv_steps_flag cs s :
  pv_is_async s.1 = true -> pv_is_async (foldl step s cs).1 = true.
Proof.
  revert s. induction cs as [|c cs IH]; intros s Hf; [done|].
  simpl. apply IH. by apply pv_step_flag.
Qed.

Lemma pv_steps_marked cs s : marked s.1 -> marked (foldl step s cs).1.
Proof.
  revert s. induction cs as [|c cs IH]; intros s Hm; [done|].
  simpl. apply IH. by apply pv_step_marked.
Qed.

Lemma op_steps_is_async cs s :
  is_async (foldl (op_step call check_csrf from_orm) s cs).1 = is_async s.1.
Proof.
  revert s. induction cs as [|c cs IH]; intros s; [done|].
  simpl. rewrite IH. apply op_step_is_async.
Qed.

End Flags.

(** C8: the flag of an operation is set by its constructor, [False] by
    [Operation] and [True] by [AsyncOperation] (which does construct when
    Django is 3.1 or later), and no sequence of calls of the methods of an
    operation changes it.  The flag of a path view is [False] at first; [add]
    leaves it [True] when the handler is asynchronous and as it was
    otherwise; once [True] it stays [True] under every sequence of calls of
    [add], [set_api_instance], [get_view], the views, [_find_operation] and
    the methods of the owned operations; and at every point reached from a
    new path view, an owned operation that is asynchronous has the path view
    flagged. *)
Theorem is_async_flags call check_csrf from_orm signature_models
    signature_is_async django_VERSION :
  (forall path methods view_func auth response st,
     exists self st',
       Operation_init signature_models path methods view_func auth response st
         = (Ok self, st')
       /\ is_async self = false)
  /\ (forall path methods view_func auth response st self st',
        AsyncOperation_init signature_models django_VERSION
          path methods view_func auth response st = (Ok self, st') ->
        is_async self = true)
  /\ (django_too_old django_VERSION = false ->
      forall path methods view_func auth response st,
        exists self st',
          AsyncOperation_init signature_models django_VERSION
            path methods view_func auth response st = (Ok self, st')
          /\ is_async self = true)
  /\ (forall cs self st,
        is_async (foldl (op_step call check_csrf from_orm) (self, st) cs).1
        = is_async self)
  /\ pv_is_async PathView_init = false
  /\ (forall self path methods view_func auth response st,
        pv_is_async
          (add signature_models signature_is_async django_VERSION
             self path methods view_func auth response st).1.1
        = signature_is_async view_func || pv_is_async self)
  /\ (forall cs self st,
        pv_is_async self = true ->
        pv_is_async
          (foldl (pv_step call check_csrf from_orm signature_models
                    signature_is_async django_VERSION) (self, st) cs).1 = true)
  /\ (forall cs st op,
        let self :=
          (foldl (pv_step call check_csrf from_orm signature_models
                    signature_is_async django_VERSION) (PathView_init, st) cs).1 in
        op ∈ operations self -> is_async op = true -> pv_is_async self = true).
Proof.
  split.
  { intros path methods view_func auth response st.
    destruct (Operation_init signature_models path methods view_func auth
                response st) as [[self|e] st'] eqn:Hinit.
    - exists self, st'. split; [done|]. by eapply Operation_init_is_async.
    - by rewrite Operation_init_eq in Hinit. }
  split.
  { intros path methods view_func auth response st self st'.
    apply AsyncOperation_init_is_async. }
  split.
  { intros Hv path methods view_func auth response st.
    unfold AsyncOperation_init. rewrite Hv. unfold bind.
    rewrite Operation_init_eq. by eexists _, _. }
  split.
  { intros cs self st. apply (op_steps_is_async call check_csrf from_orm cs (self, st)). }
  split; [done|]. split.
  { apply add_pv_is_async. }
  split.
  { intros cs self st Hf.
    by apply (pv_steps_flag call check_csrf from_orm signature_models
                signature_is_async django_VERSION cs (self, st)). }
  intros cs st op self.
  apply (pv_steps_marked call check_csrf from_orm signature_models
           signature_is_async django_VERSION cs (PathView_init, st)).
  intros o Ho. by apply not_elem_of_nil in Ho.
Qed.

Lemma is_async_flags_witness :
  (exists self st',
     AsyncOperation_init Ex.no_models Ex.django_VERSION
       "/items" ["GET"] 7%nat NOT_SET DNone Ex.st = (Ok self, st')
     /\ is_async self = true)
  /\ pv_is_async
       (foldl (pv_step Ex.call Ex.check_csrf Ex.from_orm Ex.no_models
                 Ex.is_async_view Ex.django_VERSION)
          ((add Ex.no_models Ex.is_async_view Ex.django_VERSION PathView_init
              "/items" ["GET"] 7%nat NOT_SET DNone Ex.st).1.1, Ex.st)
          [Call_add "/items" ["POST"] 3%nat NOT_SET DNone; Call_get_view;
           Call__find_operation; Call_pv_set_api_instance Ex.the_api;
           Call__sync_view [] ∅; Call_operation 1 (Call__set_auth VNone)]).1
     = true.
Proof.
  destruct (is_async_flags Ex.call Ex.check_csrf Ex.from_orm Ex.no_models
              Ex.is_async_view Ex.django_VERSION)
    as (_ & _ & Hasync & _ & _ & _ & Hmono & _).
  split.
  - apply Hasync. reflexivity.
  - apply Hmono. reflexivity.
Defined.

(** ** What the pipeline does to the state *)

Lemma logged_authenticated st es v :
  logged (authenticated st v) es = authenticated (logged st es) v.
Proof. reflexivity. Qed.

Section Frame.

Variable P : event -> Prop.

Lemma only_logs_ret {A} (a : A) : only_logs P (ret a).
Proof. intros st. exists []. by rewrite logged_nil. Qed.

Lemma only_logs_raise {A} e : only_logs P (raise e : M A).
Proof. intros st. exists []. by rewrite logged_nil. Qed.

Lemma only_logs_lift {A} (r : result A) : only_logs P (lift r).
Proof. intros st. exists []. by rewrite logged_nil. Qed.

Lemma only_logs_get_request : only_logs P get_request.
Proof. intros st. exists []. by rewrite logged_nil. Qed.

Lemma only_logs_deref ref : only_logs P (deref ref).
Proof. intros st. exists []. by rewrite logged_nil. Qed.

Lemma only_logs_emit e : P e -> only_logs P (emit e).
Proof. intros He st. exists [e]. split; [done|]. by constructor. Qed.

Lemma only_logs_bind {A B} (m : M A) (k : A -> M B) :
  only_logs P m -> (forall a, only_logs P (k a)) -> only_logs P (bind m k).
Proof.
  intros Hm Hk st. unfold bind. destruct (Hm st) as (es & Hst & Hes).
  destruct (m st) as [[a|e] st']; simpl in Hst; subst st'.
  - destruct (Hk a (logged st es)) as (es' & Hst' & Hes').
    exists (es ++ es'). rewrite Hst', logged_logged. split; [done|].
    by apply Forall_app.
  - by exists es.
Qed.

Lemma logs_and_auth_bind {A B} (m : M A) (k : A -> M B) :
  logs_and_auth P m -> (forall a, only_logs P (k a)) -> logs_and_auth P (bind m k).
Proof.
  intros Hm Hk st. unfold bind. destruct (Hm st) as (es & Hes & Hst).
  destruct (m st) as [[a|e] st']; simpl in Hst.
  - destruct (Hk a st') as (es' & Hst' & Hes').
    exists (es ++ es'). split; [by apply Forall_app|]. rewrite Hst'.
    destruct Hst as [->|[v ->]].
    + left. by rewrite logged_logged.
    + right. exists v. by rewrite logged_authenticated, logged_logged.
  - by exists es.
Qed.

Lemma only_logs_logs_and_auth {A} (m : M A) : only_logs P m -> logs_and_auth P m.
Proof. intros Hm st. destruct (Hm st) as (es & Hst & Hes). exists es. auto. Qed.

End Frame.

Section PipelineFrame.

Variable call : nat -> request -> gmap string value -> result value.
Variable check_csrf : request -> nat -> value.
Variable from_orm : decl -> value -> result value.
Variable P : event -> Prop.
Hypothesis P_csrf : forall f, P (ECsrf f).
Hypothesis P_resolve : forall source, P (EResolve source).
Hypothesis P_view : forall f kwargs, P (EView f kwargs).

Lemma logs_and_auth_bind_l {A B} (m : M A) (k : A -> M B) :
  only_logs P m -> (forall a, logs_and_auth P (k a)) -> logs_and_auth P (bind m k).
Proof.
  intros Hm Hk st. unfold bind. destruct (Hm st) as (es & Hst & Hes).
  destruct (m st) as [[a|e] st']; simpl in Hst; subst st'.
  - destruct (Hk a (logged st es)) as (es' & Hes' & Hst').
    exists (es ++ es'). split; [by apply Forall_app|].
    destruct Hst' as [->|[v ->]].
    + left. by rewrite logged_logged.
    + right. exists v. by rewrite logged_logged.
  - exists es. auto.
Qed.

Lemma _run_csrf_only_logs self : only_logs P (_run_csrf check_csrf self).
Proof.
  unfold _run_csrf. destruct (api self) as [a|]; [|apply only_logs_raise].
  destruct (csrf a); [|apply only_logs_ret].
  apply only_logs_bind; [apply only_logs_get_request|]. intros request.
  apply only_logs_bind; [by apply only_logs_emit|]. intros _.
  destruct (truthy _); apply only_logs_ret.
Qed.

Lemma _get_values_only_logs self kw : only_logs P (_get_values self kw).
Proof.
  intros st. rewrite _get_values_eq. eexists. split; [reflexivity|].
  apply Forall_fmap, Forall_true. intros model. apply P_resolve.
Qed.

Lemma call_view_only_logs self values : only_logs P (call_view call self values).
Proof.
  unfold call_view.
  apply only_logs_bind; [apply only_logs_get_request|]. intros request.
  apply only_logs_bind; [by apply only_logs_emit|]. intros _.
  apply only_logs_lift.
Qed.

Lemma _create_response_only_logs self result :
  only_logs P (_create_response from_orm self result).
Proof.
  unfold _create_response.
  destruct (isinstance_HttpResponse result); [apply only_logs_ret|].
  destruct (decl_is_None _); [apply only_logs_ret|].
  destruct (match result with VTuple [s; r] => (s, r) | _ => (VInt 200, result) end)
    as [status payload'].
  apply only_logs_bind.
  - destruct (response_model self) as [|t|r|ref]; try apply only_logs_ret.
    apply only_logs_bind; [apply only_logs_deref|]. intros d.
    unfold lookup_status. destruct (negb _); [apply only_logs_raise|].
    destruct status; try apply only_logs_raise.
    destruct (d !! n); [apply only_logs_ret | apply only_logs_raise].
  - intros rm. apply only_logs_bind; [|intros r; apply only_logs_ret].
    unfold shape. destruct rm; (apply only_logs_raise || apply only_logs_lift).
Qed.

(** After the checks, [run] calls foreign code and nothing else. *)
Lemma run_after_checks_only_logs self kw :
  only_logs P
    (ve <- _get_values self kw ;;
     let '(values, errors) := ve in
     if negb (Nat.eqb (length errors) 0) then
       ret (Response (VDict [("detail", errors_value errors)]) (Some (VInt 422)))
     else
       result <- call_view call self values ;;
       _create_response from_orm self result).
Proof.
  apply only_logs_bind; [apply _get_values_only_logs|]. intros [values errors].
  destruct (negb _); [apply only_logs_ret|].
  apply only_logs_bind; [apply call_view_only_logs|]. intros result.
  apply _create_response_only_logs.
Qed.

Lemma call_callback_only_logs callback :
  (forall f, P (EAuth f)) -> only_logs P (call_callback call callback).
Proof.
  intros P_auth. unfold call_callback.
  destruct callback; try apply only_logs_raise.
  apply only_logs_bind; [apply only_logs_get_request|]. intros request.
  apply only_logs_bind; [by apply only_logs_emit|]. intros _.
  apply only_logs_lift.
Qed.

Lemma _run_authentication_logs_and_auth self :
  (forall f, P (EAuth f)) -> logs_and_auth P (_run_authentication call self).
Proof.
  intros P_auth. unfold _run_authentication.
  destruct (iter_items _) as [callbacks|];
    [|apply only_logs_logs_and_auth, only_logs_raise].
  induction callbacks as [|callback rest IH]; simpl.
  - apply only_logs_logs_and_auth, only_logs_ret.
  - apply logs_and_auth_bind_l; [by apply call_callback_only_logs|].
    intros result. destruct (negb _); [|done].
    intros st. exists []. split; [done|]. right. exists result.
    unfold bind, set_request_auth, ret. simpl. by rewrite logged_nil.
Qed.

(** Without callbacks, [run] assigns nothing to the request. *)
Lemma run_only_logs self kw :
  truthy (auth_callbacks self) = false ->
  only_logs P (run call check_csrf from_orm self kw).
Proof.
  intros Hcb. unfold run, _run_checks. rewrite Hcb.
  apply only_logs_bind; [apply _run_csrf_only_logs|]. intros error.
  destruct (truthy error); [apply only_logs_ret|].
  apply run_after_checks_only_logs.
Qed.

Lemma run_logs_and_auth self kw :
  (forall f, P (EAuth f)) ->
  logs_and_auth P (run call check_csrf from_orm self kw).
Proof.
  intros P_auth. unfold run. apply logs_and_auth_bind.
  - unfold _run_checks.
    destruct (truthy (auth_callbacks self));
      [|apply only_logs_logs_and_auth, _run_csrf_only_logs].
    apply logs_and_auth_bind; [by apply _run_authentication_logs_and_auth|].
    intros error. destruct (truthy error);
      [apply only_logs_ret | apply _run_csrf_only_logs].
  - intros error. destruct (truthy error); [apply only_logs_ret|].
    apply run_after_checks_only_logs.
Qed.

End PipelineFrame.

Lemma logs_and_auth_frame {A} (m : M A) st :
  logs_and_auth (fun _ => True) m ->
  heap (m st).2 = heap st
  /\ method (req (m st).2) = method (req st)
  /\ payload (req (m st).2) = payload (req st)
  /\ exists es, log (m st).2 = log st ++ es.
Proof.
  intros Hm. destruct (Hm st) as (es & _ & [->|[v ->]]); simpl; eauto 6.
Qed.

Lemma views_logs_and_auth call check_csrf from_orm self a kw :
  logs_and_auth (fun _ => True) (_sync_view call check_csrf from_orm self a kw)
  /\ logs_and_auth (fun _ => True) (_async_view call check_csrf from_orm self a kw).
Proof.
  assert (Hawait : forall op,
    logs_and_auth (fun _ => True) (await_run call check_csrf from_orm op a kw)).
  { intros op. unfold await_run.
    destruct a; [by apply run_logs_and_auth|].
    apply only_logs_logs_and_auth, only_logs_raise. }
  assert (Hrun : forall operation,
    logs_and_auth (fun _ => True)
      (operation_run call check_csrf from_orm operation a kw)).
  { intros [op|]; simpl; [|apply only_logs_logs_and_auth, only_logs_raise].
    destruct a; [|apply only_logs_logs_and_auth, only_logs_raise].
    destruct (is_async op); [|by apply run_logs_and_auth].
    apply only_logs_logs_and_auth, only_logs_ret. }
  assert (Hfind : only_logs (fun _ => True) (_find_operation self)).
  { unfold _find_operation. apply only_logs_bind; [apply only_logs_get_request|].
    intros request. apply only_logs_ret. }
  split.
  - unfold _sync_view. apply logs_and_auth_bind_l; [done|].
    intros [operation error]. destruct (truthy error); [|done].
    apply only_logs_logs_and_auth, only_logs_ret.
  - unfold _async_view. apply logs_and_auth_bind_l; [done|].
    intros [operation error].
    destruct (truthy error); [apply only_logs_logs_and_auth, only_logs_ret|].
    destruct operation as [op|];
      [|apply only_logs_logs_and_auth, only_logs_raise].
    destruct (is_async op); [apply Hawait | apply (Hrun (Some op))].
Qed.

(** X1: an operation whose callback list is empty (auth=None, or auth left
    unset with an application that sets none) calls no authentication
    callback on any request, and [run] leaves the request, its [auth]
    attribute included, and the dictionaries as they are: all it does to the
    state is call the CSRF check, the models and the view. *)
Theorem no_callbacks_no_authentication call check_csrf from_orm
    (self : Operation) (kw : gmap string value) st :
  truthy (auth_callbacks self) = false ->
  exists es,
    (run call check_csrf from_orm self kw st).2 = logged st es
    /\ Forall (fun e => forall f, e <> EAuth f) es.
Proof.
  intros Hcb.
  by apply (run_only_logs call check_csrf from_orm
              (fun e => forall f, e <> EAuth f)).
Qed.

Lemma no_callbacks_no_authentication_witness :
  exists es,
    (run Ex.call Ex.check_csrf Ex.from_orm
       (Ex.op 3 (VList []) [Ex.query_model] DNone) ∅ Ex.st).2 = logged Ex.st es
    /\ Forall (fun e => forall f, e <> EAuth f) es.
Proof.
  apply (no_callbacks_no_authentication Ex.call Ex.check_csrf Ex.from_orm
           (Ex.op 3 (VList []) [Ex.query_model] DNone) ∅ Ex.st).
  reflexivity.
Defined.

(** X2: handling a request never touches the response declarations: after
    [run], and after either view of a path view, every dictionary is what it
    was, the request has the method and the contents it had, and the record
    of calls has only grown. *)
Theorem request_handling_keeps_declarations call check_csrf from_orm
    (self : Operation) (pv : PathView) (a : list value)
    (kw : gmap string value) st :
  (heap (run call check_csrf from_orm self kw st).2 = heap st
   /\ method (req (run call check_csrf from_orm self kw st).2) = method (req st)
   /\ payload (req (run call check_csrf from_orm self kw st).2) = payload (req st)
   /\ exists es, log (run call check_csrf from_orm self kw st).2 = log st ++ es)
  /\ (heap (_sync_view call check_csrf from_orm pv a kw st).2 = heap st
      /\ method (req (_sync_view call check_csrf from_orm pv a kw st).2)
         = method (req st)
      /\ payload (req (_sync_view call check_csrf from_orm pv a kw st).2)
         = payload (req st)
      /\ exists es,
           log (_sync_view call check_csrf from_orm pv a kw st).2 = log st ++ es)
  /\ (heap (_async_view call check_csrf from_orm pv a kw st).2 = heap st
      /\ method (req (_async_view call check_csrf from_orm pv a kw st).2)
         = method (req st)
      /\ payload (req (_async_view call check_csrf from_orm pv a kw st).2)
         = payload (req st)
      /\ exists es,
           log (_async_view call check_csrf from_orm pv a kw st).2 = log st ++ es).
Proof.
  split; [|split].
  - apply logs_and_auth_frame. by apply run_logs_and_auth.
  - apply logs_and_auth_frame. apply views_logs_and_auth.
  - apply logs_and_auth_frame. apply views_logs_and_auth.
Qed.

(** ** The stages of [run] *)

Lemma _run_checks_after_auth call check_csrf self st st1 :
  auth_stage_passes call self st st1 ->
  _run_checks call check_csrf self st = _run_csrf check_csrf self st1.
Proof.
  unfold auth_stage_passes, _run_checks.
  destruct (truthy (auth_callbacks self)); [|by intros ->].
  intros (error & Hauth & Herr). by rewrite (bind_ok _ _ _ _ _ Hauth), Herr.
Qed.

(** X3: once authentication has let the request through, on an operation
    bound to an application,
    - if the application enforces CSRF and the check reports an error, [run]
      returns that very error and stops: the check is the only call made, no
      model is resolved and the view is not called;
    - if the application does not enforce CSRF, the check is not called at
      all and the checks pass;
    - if it does and the check reports nothing, the checks pass after that
      one call. *)
Theorem csrf_stage call check_csrf from_orm (self : Operation)
    (kw : gmap string value) st st1 (a : NinjaAPI) :
  auth_stage_passes call self st st1 ->
  api self = Some a ->
  (csrf a = true ->
   truthy (check_csrf (req st1) (view_func self)) = true ->
   run call check_csrf from_orm self kw st
   = (Ok (check_csrf (req st1) (view_func self)),
      logged st1 [ECsrf (view_func self)]))
  /\ (csrf a = false ->
      _run_checks call check_csrf self st = (Ok VNone, st1))
  /\ (csrf a = true ->
      truthy (check_csrf (req st1) (view_func self)) = false ->
      _run_checks call check_csrf self st
      = (Ok VNone, logged st1 [ECsrf (view_func self)])).
Proof.
  intros Hauth Hapi.
  pose proof (_run_checks_after_auth call check_csrf self st st1 Hauth) as Hc.
  split; [|split].
  - intros Hcsrf Herr. unfold run, bind at 1. rewrite Hc.
    unfold _run_csrf. rewrite Hapi, Hcsrf.
    unfold bind, get_request, emit, ret. simpl. rewrite Herr. simpl.
    by rewrite Herr.
  - intros Hcsrf. rewrite Hc. unfold _run_csrf. by rewrite Hapi, Hcsrf.
  - intros Hcsrf Herr. rewrite Hc. unfold _run_csrf. rewrite Hapi, Hcsrf.
    unfold bind, get_request, emit, ret. simpl. by rewrite Herr.
Qed.

Lemma csrf_stage_witness :
  run Ex.call Ex.csrf_rejects Ex.from_orm
    (mkOperation false "/items" ["POST"] 3 (Some Ex.csrf_api) NOT_SET (VList [])
       [Ex.query_model] DNone) ∅ Ex.st
  = (Ok (VHttpResponse 403 "CSRF check Failed"), logged Ex.st [ECsrf 3])
  /\ _run_checks Ex.call Ex.check_csrf (Ex.op 3 (VList []) [] DNone) Ex.st
     = (Ok VNone, Ex.st)
  /\ _run_checks Ex.call Ex.check_csrf
       (mkOperation false "/items" ["POST"] 3 (Some Ex.csrf_api) NOT_SET
          (VList []) [] DNone) Ex.st
     = (Ok VNone, logged Ex.st [ECsrf 3]).
Proof.
  split; [|split].
  - apply (proj1 (csrf_stage Ex.call Ex.csrf_rejects Ex.from_orm
             (mkOperation false "/items" ["POST"] 3 (Some Ex.csrf_api) NOT_SET
                (VList []) [Ex.query_model] DNone)
             ∅ Ex.st Ex.st Ex.csrf_api eq_refl eq_refl)); reflexivity.
  - apply (proj1 (proj2 (csrf_stage Ex.call Ex.check_csrf Ex.from_orm
             (Ex.op 3 (VList []) [] DNone) ∅ Ex.st Ex.st Ex.the_api
             eq_refl eq_refl))). reflexivity.
  - apply (proj2 (proj2 (csrf_stage Ex.call Ex.check_csrf Ex.from_orm
             (mkOperation false "/items" ["POST"] 3 (Some Ex.csrf_api) NOT_SET
                (VList []) [] DNone)
             ∅ Ex.st Ex.st Ex.csrf_api eq_refl eq_refl))); reflexivity.
Defined.

(** X4: an operation that was constructed but never bound to an application
    ([set_api_instance] not called) has no application to ask for the CSRF
    policy: on every request that authentication lets through, [run] raises
    AttributeError, before any model is resolved or the view is called. *)
Theorem unbound_operation_raises call check_csrf from_orm signature_models
    path methods view_func auth response st0 :
  exists self st0',
    Operation_init signature_models path methods view_func auth response st0
      = (Ok self, st0')
    /\ api self = None
    /\ forall kw st st1,
         auth_stage_passes call self st st1 ->
         run call check_csrf from_orm self kw st
         = (Raise (AttributeError "'NoneType' object has no attribute 'csrf'"),
            st1).
Proof.
  rewrite Operation_init_eq. eexists _, _. split; [reflexivity|].
  assert (Hapi : api (set_response_model
            (set_models
               (_set_auth
                  (mkOperation false path methods view_func None auth
                     (VList []) [] DNone) auth)
               (signature_models path view_func))
            (match response with
             | DDict ref => DDict ref
             | _ => _create_response_model response
             end)) = None).
  { simpl. by destruct (_set_auth_fields
      (mkOperation false path methods view_func None auth (VList []) [] DNone)
      auth) as (_ & -> & _). }
  split; [done|]. intros kw st st1 Hauth.
  unfold run, bind at 1.
  rewrite (_run_checks_after_auth call check_csrf _ st st1 Hauth).
  unfold _run_csrf. by rewrite Hapi.
Qed.

Lemma unbound_operation_raises_witness :
  exists self st0',
    Operation_init Ex.no_models "/items" ["GET"] 3%nat VNone DNone Ex.st
      = (Ok self, st0')
    /\ run Ex.call Ex.check_csrf Ex.from_orm self ∅ Ex.st
       = (Raise (AttributeError "'NoneType' object has no attribute 'csrf'"),
          Ex.st).
Proof.
  destruct (unbound_operation_raises Ex.call Ex.check_csrf Ex.from_orm
              Ex.no_models "/items" ["GET"] 3%nat VNone DNone Ex.st)
    as (self & st0' & Hinit & _ & Hrun).
  exists self, st0'. split; [exact Hinit|]. apply Hrun.
  rewrite Operation_init_eq in Hinit. injection Hinit as <- _. reflexivity.
Defined.

Lemma all_resolve_no_errors request path_params ms :
  Forall (fun model => exists data, resolve model request path_params = Resolved data) ms ->
  all_errors request path_params ms = [].
Proof.
  induction 1 as [|model ms [data Hd] _ IH]; [done|].
  unfold all_errors. simpl. fold (all_errors request path_params ms).
  unfold model_errors. by rewrite Hd, IH.
Qed.

(** X5: the whole pipeline on a good request.  When the checks pass, every
    model resolves, the view returns a value that is not a native response
    and the operation declares a single response schema that accepts the
    payload, [run] resolves every model once, in order, then calls the view
    exactly once, with the merged arguments, and answers with the shaped
    payload: status 200 for a plain value, the first item for a returned
    pair. *)
Theorem run_success call check_csrf from_orm (self : Operation)
    (kw : gmap string value) st error st1 (result : value) (t : decl)
    (body : value) :
  _run_checks call check_csrf self st = (Ok error, st1) ->
  truthy error = false ->
  Forall (fun model => exists data, resolve model (req st1) kw = Resolved data)
    (models self) ->
  call (view_func self) (req st1) (merged_values (req st1) kw (models self))
    = Ok result ->
  isinstance_HttpResponse result = false ->
  response_model self = NinjaResponseSchema t ->
  from_orm (NinjaResponseSchema t) (resolved_payload result) = Ok body ->
  run call check_csrf from_orm self kw st
  = (Ok (VResponse (resolved_status result) body),
     logged st1
       (map (fun model => EResolve (_in model)) (models self)
        ++ [EView (view_func self) (merged_values (req st1) kw (models self))])).
Proof.
  intros Hc Herr Hms Hview Hnat Hrm Hbody.
  pose proof (_get_values_eq self kw st1) as Hv.
  rewrite (all_resolve_no_errors _ _ _ Hms) in Hv.
  rewrite (run_shapes_view_result call check_csrf from_orm self kw st error st1
             _ _ result
             (logged st1
                (map (fun model => EResolve (_in model)) (models self)
                 ++ [EView (view_func self)
                       (merged_values (req st1) kw (models self))]))
             Hc Herr Hv).
  - rewrite _create_response_declared by (done || by rewrite Hrm).
    rewrite Hrm. unfold bind, ret, shape, lift. by rewrite Hbody.
  - unfold call_view, bind, get_request, emit, lift, logged. simpl.
    rewrite Hview. by rewrite app_assoc.
Qed.

Lemma run_success_witness :
  run Ex.call Ex.check_csrf Ex.from_orm
    (Ex.op 3 (VList []) [Ex.query_model] (NinjaResponseSchema (DType 0))) ∅ Ex.st
  = (Ok (VResponse (VInt 201) (VStr "created")),
     logged Ex.st [EResolve "query"; EView 3 {[ "limit" := VInt 10 ]}]).
Proof.
  apply (run_success Ex.call Ex.check_csrf Ex.from_orm
           (Ex.op 3 (VList []) [Ex.query_model] (NinjaResponseSchema (DType 0)))
           ∅ Ex.st VNone Ex.st (VTuple [VInt 201; VStr "created"]) (DType 0)
           (VStr "created")); try reflexivity.
  repeat constructor. by eexists.
Defined.

(** X6: only a tuple of exactly two items is read as (status, payload).  A
    tuple of any other length is a payload like any other value: under a
    single response schema the whole tuple is shaped and the status is 200. *)
Theorem only_pairs_carry_a_status from_orm (self : Operation)
    (items : list value) (t : decl) st :
  length items <> 2%nat ->
  response_model self = NinjaResponseSchema t ->
  _create_response from_orm self (VTuple items) st =
    (r <- lift (from_orm (NinjaResponseSchema t) (VTuple items)) ;;
     ret (VResponse (VInt 200) r)) st.
Proof.
  intros Hlen Hrm. rewrite _create_response_declared by (done || by rewrite Hrm).
  rewrite Hrm. destruct items as [|s [|r [|]]]; try done.
Qed.

Lemma only_pairs_carry_a_status_witness :
  _create_response Ex.from_orm
    (Ex.op 3 (VList []) [] (NinjaResponseSchema (DType 0)))
    (VTuple [VInt 201; VStr "created"; VStr "extra"]) Ex.st
  = (Ok (VResponse (VInt 200) (VTuple [VInt 201; VStr "created"; VStr "extra"])),
     Ex.st).
Proof.
  rewrite (only_pairs_carry_a_status Ex.from_orm
             (Ex.op 3 (VList []) [] (NinjaResponseSchema (DType 0)))
             [VInt 201; VStr "created"; VStr "extra"] (DType 0) Ex.st);
    [reflexivity | discriminate | reflexivity].
Defined.

(** X7: a status declared with [None] in a status-keyed declaration gets no
    schema: the constructor leaves the entry [None], and shaping a result
    with that status raises AttributeError instead of answering. *)
Theorem status_declared_None_cannot_be_served from_orm signature_models
    path methods view_func auth (ref : nat) (d : gmap Z decl) (n : Z)
    (p : value) st :
  heap st !! ref = Some d ->
  d !! n = Some DNone ->
  exists self st',
    Operation_init signature_models path methods view_func auth (DDict ref) st
      = (Ok self, st')
    /\ (exists d', heap st' !! ref = Some d' /\ d' !! n = Some DNone)
    /\ _create_response from_orm self (VTuple [VInt n; p]) st'
       = (Raise (AttributeError "'NoneType' object has no attribute 'from_orm'"),
          st').
Proof.
  intros Hd Hn. rewrite Operation_init_eq. eexists _, _.
  split; [reflexivity|]. rewrite Hd. simpl.
  assert (Hn' : (_create_response_model <$> d) !! n = Some DNone)
    by by rewrite lookup_fmap, Hn.
  split.
  { eexists. split; [apply lookup_insert_eq|done]. }
  rewrite _create_response_declared by done. simpl.
  unfold bind, deref, lookup_status. simpl.
  rewrite lookup_insert_eq. simpl. by rewrite Hn'.
Qed.

Lemma status_declared_None_cannot_be_served_witness :
  exists self st',
    Operation_init Ex.no_models "/items" ["DELETE"] 3%nat VNone (DDict 0) Ex.st_204
      = (Ok self, st')
    /\ _create_response Ex.from_orm self (VTuple [VInt 204; VNone]) st'
       = (Raise (AttributeError "'NoneType' object has no attribute 'from_orm'"),
          st').
Proof.
  destruct (status_declared_None_cannot_be_served Ex.from_orm Ex.no_models
              "/items" ["DELETE"] 3%nat VNone 0%nat
              {[ 200 := DType 0; 204 := DNone ]} 204 VNone Ex.st_204
              eq_refl eq_refl)
    as (self & st' & Hinit & _ & Hresp).
  by exists self, st'.
Defined.

(** X8: a dictionary of declarations passed to two operations is rewritten
    by each constructor in turn, so every declared type ends up wrapped
    twice, and both operations, which hold the same dictionary object, see
    the doubly wrapped schemas. *)
Theorem shared_declaration_wrapped_twice signature_models
    path1 methods1 view_func1 auth1 path2 methods2 view_func2 auth2
    (ref : nat) (d : gmap Z decl) st :
  heap st !! ref = Some d ->
  exists op1 st1 op2 st2,
    Operation_init signature_models path1 methods1 view_func1 auth1 (DDict ref) st
      = (Ok op1, st1)
    /\ Operation_init signature_models path2 methods2 view_func2 auth2 (DDict ref) st1
       = (Ok op2, st2)
    /\ response_model op1 = DDict ref
    /\ response_model op2 = DDict ref
    /\ heap st2 !! ref
       = Some (_create_response_model <$> (_create_response_model <$> d))
    /\ forall n m d2,
         d !! n = Some m -> m <> DNone -> heap st2 !! ref = Some d2 ->
         d2 !! n = Some (NinjaResponseSchema (NinjaResponseSchema m)).
Proof.
  intros Hd. rewrite Operation_init_eq. eexists _, _.
  rewrite Operation_init_eq. eexists _, _.
  split; [reflexivity|]. split; [reflexivity|].
  split; [done|]. split; [done|]. simpl.
  rewrite Hd, !lookup_insert_eq. simpl. split; [done|].
  intros n m d2 Hn Hm [= <-]. rewrite !lookup_fmap, Hn. simpl.
  by destruct m.
Qed.

Lemma shared_declaration_wrapped_twice_witness :
  exists op1 st1 op2 st2,
    Operation_init Ex.no_models "/items" ["GET"] 3%nat VNone (DDict 0) Ex.st_raw
      = (Ok op1, st1)
    /\ Operation_init Ex.no_models "/items" ["POST"] 4%nat VNone (DDict 0) st1
       = (Ok op2, st2)
    /\ heap st2 !! 0%nat
       = Some {[ 200 := NinjaResponseSchema (NinjaResponseSchema (DType 0));
                 404 := NinjaResponseSchema (NinjaResponseSchema (DType 1)) ]}.
Proof.
  destruct (shared_declaration_wrapped_twice Ex.no_models
              "/items" ["GET"] 3%nat VNone "/items" ["POST"] 4%nat VNone
              0%nat {[ 200 := DType 0; 404 := DType 1 ]} Ex.st_raw eq_refl)
    as (op1 & st1 & op2 & st2 & H1 & H2 & _ & _ & Hheap & _).
  exists op1, st1, op2, st2. split; [exact H1|]. split; [exact H2|].
  rewrite Hheap. reflexivity.
Defined.

(** ** Merging the resolved arguments *)

Lemma merge_keeps request (path_params : gmap string value) post
    (acc : gmap string value) k v :
  acc !! k = Some v ->
  Forall (fun model => forall data,
            resolve model request path_params = Resolved data -> data !! k = None)
    post ->
  foldl (fun values model =>
           match resolve model request path_params with
           | Resolved data => data ∪ values
           | _ => values
           end) acc post !! k = Some v.
Proof.
  intros Hacc Hpost. revert acc Hacc.
  induction Hpost as [|model post Hm _ IH]; intros acc Hacc; [done|].
  simpl. apply IH.
  destruct (resolve model request path_params) as [data| |] eqn:Hr; try done.
  by rewrite lookup_union_r by by apply Hm.
Qed.

(** X9: when several models resolve an argument of the same name, the view
    gets the value of the last of them in declaration order: the value a
    model resolves for a name is the one in the merged arguments as long as
    no later model resolves that name. *)
Theorem last_model_wins (self : Operation) (kw : gmap string value) st
    (pre : list ParamModel) (model : ParamModel) (post : list ParamModel)
    (data : gmap string value) (k : string) (v : value) :
  models self = pre ++ model :: post ->
  resolve model (req st) kw = Resolved data ->
  data !! k = Some v ->
  Forall (fun model' => forall data',
            resolve model' (req st) kw = Resolved data' -> data' !! k = None)
    post ->
  exists values errors st',
    _get_values self kw st = (Ok (values, errors), st')
    /\ values !! k = Some v.
Proof.
  intros Hms Hr Hk Hpost. rewrite _get_values_eq. eexists _, _, _.
  split; [reflexivity|]. unfold merged_values. rewrite Hms, foldl_app. simpl.
  apply merge_keeps; [|done]. rewrite Hr. by apply lookup_union_Some_l.
Qed.

Lemma last_model_wins_witness :
  exists values errors st',
    _get_values (Ex.op 3 (VList []) [Ex.path_limit_model; Ex.query_model] DNone)
      ∅ Ex.st = (Ok (values, errors), st')
    /\ values !! "limit" = Some (VInt 10).
Proof.
  apply (last_model_wins
           (Ex.op 3 (VList []) [Ex.path_limit_model; Ex.query_model] DNone)
           ∅ Ex.st [Ex.path_limit_model] Ex.query_model []
           {[ "limit" := VInt 10 ]} "limit" (VInt 10)).
  - reflexivity.
  - reflexivity.
  - reflexivity.
  - constructor.
Defined.

(** ** Binding to an application *)

Lemma is_NOT_SET_true v : is_NOT_SET v = true <-> v = NOT_SET.
Proof. by destruct v. Qed.

Lemma is_NOT_SET_false v : v <> NOT_SET -> is_NOT_SET v = false.
Proof. by destruct v. Qed.

(** X10: what [set_api_instance] does to the callbacks of an operation.
    - An operation given its own [auth] (anything but the unset marker),
      [None] included, keeps its callbacks: the application's auth is not
      looked at.
    - An operation whose [auth] was left unset takes the application's auth
      when the application sets one.
    - Binding twice to the same application is binding once.
    - The inherited callbacks are not withdrawn: binding again, to an
      application that sets no auth, leaves the callbacks taken from the
      first application in place.
    The flag, path, methods, view, models and response model are never
    changed. *)
Theorem set_api_instance_auth (self : Operation) (a b : NinjaAPI) :
  (auth_param self <> NOT_SET ->
   auth_callbacks (set_api_instance self a) = auth_callbacks self)
  /\ (auth_param self = NOT_SET ->
      api_auth a <> NOT_SET -> api_auth a <> VNone ->
      auth_callbacks (set_api_instance self a)
      = if isinstance_Sequence (api_auth a) && truthy (api_auth a)
        then api_auth a else VList [api_auth a])
  /\ set_api_instance (set_api_instance self a) a = set_api_instance self a
  /\ (api_auth b = NOT_SET \/ api_auth b = VNone ->
      auth_callbacks (set_api_instance (set_api_instance self a) b)
      = auth_callbacks (set_api_instance self a))
  /\ api (set_api_instance self a) = Some a
  /\ (is_async (set_api_instance self a), path (set_api_instance self a),
      methods (set_api_instance self a), view_func (set_api_instance self a),
      auth_param (set_api_instance self a), models (set_api_instance self a),
      response_model (set_api_instance self a))
     = (is_async self, path self, methods self, view_func self,
        auth_param self, models self, response_model self).
Proof.
  destruct self as [fl pa ms vf ap param cbs mods rm]. simpl.
  split; [|split; [|split; [|split; [|split]]]].
  - intros Hp. unfold set_api_instance. simpl. by rewrite is_NOT_SET_false.
  - intros -> Ha Hn. unfold set_api_instance, _set_auth. simpl.
    rewrite (is_NOT_SET_false _ Ha). simpl.
    by destruct (api_auth a).
  - unfold set_api_instance, _set_auth. simpl.
    destruct (is_NOT_SET param) eqn:Hp, (is_NOT_SET (api_auth a)) eqn:Ha,
      (is_None (api_auth a)) eqn:Hn; simpl; rewrite ?Hp, ?Ha, ?Hn; simpl;
      rewrite ?Hp; reflexivity.
  - intros Hb. unfold set_api_instance at 1.
    assert (Hc : _set_auth (set_api (set_api_instance
                   (mkOperation fl pa ms vf ap param cbs mods rm) a) b)
                   (api_auth b)
                 = set_api (set_api_instance
                     (mkOperation fl pa ms vf ap param cbs mods rm) a) b).
    { unfold _set_auth. by destruct Hb as [-> | ->]. }
    rewrite Hc. by destruct (_ && _).
  - unfold set_api_instance. simpl.
    destruct (is_NOT_SET param && negb (is_NOT_SET (api_auth a))); [|done].
    unfold _set_auth.
    by destruct (negb (is_None (api_auth a)) && negb (is_NOT_SET (api_auth a))).
  - unfold set_api_instance. simpl.
    destruct (is_NOT_SET param && negb (is_NOT_SET (api_auth a))); [|done].
    unfold _set_auth.
    by destruct (negb (is_None (api_auth a)) && negb (is_NOT_SET (api_auth a))).
Qed.

Lemma set_api_instance_auth_witness :
  auth_callbacks
    (set_api_instance (Ex.op 3 (VList []) [] DNone) Ex.api_with_auth)
  = VList [VCallable 1]
  /\ auth_callbacks
       (set_api_instance
          (set_api_instance (Ex.op 3 (VList []) [] DNone) Ex.api_with_auth)
          Ex.the_api)
     = VList [VCallable 1]
  /\ auth_callbacks
       (set_api_instance
          (mkOperation false "/items" ["GET"] 3 None VNone (VList []) [] DNone)
          Ex.api_with_auth)
     = VList [].
Proof.
  split; [|split].
  - rewrite (proj1 (proj2 (set_api_instance_auth (Ex.op 3 (VList []) [] DNone)
                             Ex.api_with_auth Ex.the_api))); done.
  - rewrite (proj1 (proj2 (proj2 (proj2
               (set_api_instance_auth (Ex.op 3 (VList []) [] DNone)
                  Ex.api_with_auth Ex.the_api))))); [reflexivity|by left].
  - rewrite (proj1 (set_api_instance_auth
               (mkOperation false "/items" ["GET"] 3 None VNone (VList []) [] DNone)
               Ex.api_with_auth Ex.the_api)); done.
Defined.

(** X11: a single callable given as [auth] and the one-item list or tuple
    that holds it configure the same authentication: the three operations,
    bound to the same application, answer every request alike, in every
    state. *)
Theorem single_callable_is_one_item_sequence call check_csrf from_orm
    signature_models path methods view_func (f : nat) response st :
  exists op1 op2 op3 st',
    Operation_init signature_models path methods view_func (VCallable f)
      response st = (Ok op1, st')
    /\ Operation_init signature_models path methods view_func
         (VList [VCallable f]) response st = (Ok op2, st')
    /\ Operation_init signature_models path methods view_func
         (VTuple [VCallable f]) response st = (Ok op3, st')
    /\ forall a kw st1,
         run call check_csrf from_orm (set_api_instance op2 a) kw st1
         = run call check_csrf from_orm (set_api_instance op1 a) kw st1
         /\ run call check_csrf from_orm (set_api_instance op3 a) kw st1
            = run call check_csrf from_orm (set_api_instance op1 a) kw st1.
Proof.
  rewrite !Operation_init_eq. eexists _, _, _, _.
  split; [reflexivity|]. split; [reflexivity|]. split; [reflexivity|].
  intros a kw st1. split; reflexivity.
Qed.

(** ** Registration and dispatch *)

Lemma Operation_init_facts signature_models pa ms vf auth response st :
  exists self st',
    Operation_init signature_models pa ms vf auth response st
      = (Ok self, st')
    /\ is_async self = false /\ path self = pa
    /\ methods self = ms /\ view_func self = vf
    /\ api self = None /\ req st' = req st /\ log st' = log st.
Proof.
  rewrite Operation_init_eq. eexists _, _. split; [reflexivity|]. simpl.
  unfold _set_auth. destruct (_ && _); simpl;
    (repeat split; try reflexivity); by destruct response.
Qed.

(** What a registration that goes through does. *)
Lemma add_eq signature_models signature_is_async django_VERSION
    self pa ms vf auth response st :
  (signature_is_async vf = true -> django_too_old django_VERSION = false) ->
  exists op st',
    add signature_models signature_is_async django_VERSION
      self pa ms vf auth response st
    = ((mkPathView (operations self ++ [op])
          (signature_is_async vf || pv_is_async self) (pv_api self),
        Ok op), st')
    /\ is_async op = signature_is_async vf
    /\ methods op = ms /\ view_func op = vf
    /\ path op = pa
    /\ api op = None /\ req st' = req st /\ log st' = log st.
Proof.
  intros Hdj.
  destruct (Operation_init_facts signature_models pa ms vf auth
              response st)
    as (op & st' & Hinit & Hfl & Hpath & Hms & Hvf & Hapi & Hreq & Hlog).
  unfold add. destruct (signature_is_async vf) eqn:Hs.
  - unfold AsyncOperation_init. rewrite (Hdj eq_refl). unfold bind.
    rewrite Hinit. exists (set_is_async op true), st'. simpl.
    by repeat split.
  - rewrite Hinit. exists op, st'. simpl. by repeat split.
Qed.

Lemma _find_operation_loop_found ops more m allowed_methods op :
  _find_operation_loop ops m allowed_methods = (Some op, VNone) ->
  _find_operation_loop (ops ++ more) m allowed_methods = (Some op, VNone).
Proof.
  revert allowed_methods. induction ops as [|o ops IH]; intros acc; [done|].
  simpl. destruct (contains (methods o) m); [done|]. apply IH.
Qed.

(** The scan ends in exactly one of two ways. *)
Lemma _find_operation_loop_cases ops m allowed_methods :
  (exists op, _find_operation_loop ops m allowed_methods = (Some op, VNone)
              /\ op ∈ ops /\ m ∈ methods op)
  \/ (_find_operation_loop ops m allowed_methods
      = (None, VHttpResponseNotAllowed (allowed_methods ∪ all_methods ops)
                 "Method not allowed")
      /\ Forall (fun o => m ∉ methods o) ops).
Proof.
  revert allowed_methods. induction ops as [|o ops IH]; intros acc.
  - right. split; [|done]. unfold all_methods. simpl.
    by rewrite (right_id_L ∅ (∪)).
  - simpl. destruct (contains (methods o) m) eqn:Hc.
    + left. exists o. split; [done|]. split; [apply list_elem_of_here|].
      by apply contains_true.
    + destruct (IH (update acc (methods o))) as [(op & Hf & Hin & Hm)|[Hf Hall]].
      * left. exists op. split; [done|]. split; [|done].
        by apply list_elem_of_further.
      * right. split.
        -- rewrite Hf. unfold update, all_methods. simpl.
           by rewrite (assoc_L (∪)).
        -- constructor; [|done]. by apply contains_false.
Qed.

(** X12: dispatch ends in exactly one of two ways, whatever is registered:
    either an operation of the path view that takes the request's method,
    with no error, or no operation and the 405 response, whose permitted
    methods never include the method of the request; a path view with no
    operation answers 405 with no permitted method.  The state is left as
    it is. *)
Theorem dispatch_is_exclusive (self : PathView) st :
  ((exists op,
      _find_operation self st = (Ok (Some op, VNone), st)
      /\ op ∈ operations self /\ method (req st) ∈ methods op)
   \/ (_find_operation self st
       = (Ok (None, VHttpResponseNotAllowed (all_methods (operations self))
                      "Method not allowed"), st)
       /\ method (req st) ∉ all_methods (operations self)))
  /\ (operations self = [] ->
      _find_operation self st
      = (Ok (None, VHttpResponseNotAllowed ∅ "Method not allowed"), st)).
Proof.
  split.
  - unfold _find_operation, bind, get_request, ret.
    destruct (_find_operation_loop_cases (operations self) (method (req st)) ∅)
      as [(op & Hf & Hin & Hm)|[Hf Hall]].
    + left. exists op. by rewrite Hf.
    + right. rewrite Hf, (left_id_L ∅ (∪)). split; [done|].
      intros (o & Ho & Hm)%all_methods_elem.
      by apply (proj1 (Forall_forall _ _) Hall o Ho).
  - intros Hops. unfold _find_operation, bind, get_request, ret.
    by rewrite Hops.
Qed.

(** X13: registering an operation (any handler, as long as an asynchronous
    one is registered on Django 3.1 or later) appends it and changes nothing
    else about dispatch: a request whose method was served keeps being
    served by the same operation, and a request whose method no earlier
    operation takes and the new one lists is served by the new operation.
    The new operation has the path, methods and view given, the flag of its
    handler, and no application yet. *)
Theorem added_operation_is_found signature_models signature_is_async
    django_VERSION (self : PathView) pa ms vf auth response st :
  (signature_is_async vf = true -> django_too_old django_VERSION = false) ->
  exists op pv' st',
    add signature_models signature_is_async django_VERSION
      self pa ms vf auth response st = ((pv', Ok op), st')
    /\ operations pv' = operations self ++ [op]
    /\ methods op = ms
    /\ view_func op = vf
    /\ is_async op = signature_is_async vf
    /\ api op = None
    /\ (forall op0,
          _find_operation self st = (Ok (Some op0, VNone), st) ->
          _find_operation pv' st' = (Ok (Some op0, VNone), st'))
    /\ (Forall (fun o => method (req st) ∉ methods o) (operations self) ->
        method (req st) ∈ ms ->
        _find_operation pv' st' = (Ok (Some op, VNone), st')).
Proof.
  intros Hdj.
  destruct (add_eq signature_models signature_is_async django_VERSION
              self pa ms vf auth response st Hdj)
    as (op & st' & Hadd & Hfl & Hms & Hvf & Hpath & Hapi & Hreq & Hlog).
  eexists op, _, st'. split; [exact Hadd|]. simpl.
  repeat (split; [done|]). split.
  - intros op0. unfold _find_operation, bind, get_request, ret. simpl.
    rewrite Hreq. intros [= Hf].
    by rewrite (_find_operation_loop_found _ _ _ _ _ Hf).
  - intros Hnone Hm. unfold _find_operation, bind, get_request, ret. simpl.
    rewrite Hreq. rewrite _find_operation_loop_skip by done. simpl.
    rewrite Hms. apply contains_true in Hm. by rewrite Hm.
Qed.

Lemma added_operation_is_found_witness :
  exists op pv' st',
    add Ex.no_models Ex.is_async_view Ex.django_VERSION Ex.two_ops
      "/items" ["DELETE"] 7%nat VNone DNone Ex.st_delete = ((pv', Ok op), st')
    /\ is_async op = true
    /\ _find_operation pv' st' = (Ok (Some op, VNone), st').
Proof.
  destruct (added_operation_is_found Ex.no_models Ex.is_async_view
              Ex.django_VERSION Ex.two_ops "/items" ["DELETE"] 7%nat VNone DNone
              Ex.st_delete (fun _ => eq_refl))
    as (op & pv' & st' & Hadd & _ & _ & _ & Hfl & _ & _ & Hfind).
  exists op, pv', st'. split; [exact Hadd|]. split; [exact Hfl|].
  apply Hfind.
  - repeat constructor; apply contains_false; reflexivity.
  - apply contains_true. reflexivity.
Defined.

(** X14: registering an asynchronous handler on a Django older than 3.1
    fails, and the failure is not clean: the constructor raises, nothing is
    appended to the operations, the state is untouched, yet the path view is
    left marked asynchronous, because the mark is set before the operation
    is constructed. *)
Theorem failed_async_registration_marks_path_view signature_models
    signature_is_async django_VERSION (self : PathView) pa ms vf auth response st :
  signature_is_async vf = true ->
  django_too_old django_VERSION = true ->
  add signature_models signature_is_async django_VERSION
    self pa ms vf auth response st
  = ((mkPathView (operations self) true (pv_api self),
      Raise (Exception "Async operations are supported only with Django 3.1+")),
     st).
Proof.
  intros Hs Hdj. unfold add, AsyncOperation_init. by rewrite Hs, Hdj.
Qed.

Lemma failed_async_registration_marks_path_view_witness :
  add Ex.no_models Ex.is_async_view (3, 0) PathView_init
    "/items" ["GET"] 7%nat VNone DNone Ex.st
  = ((mkPathView [] true None,
      Raise (Exception "Async operations are supported only with Django 3.1+")),
     Ex.st).
Proof.
  apply (failed_async_registration_marks_path_view Ex.no_models
           Ex.is_async_view (3, 0) PathView_init "/items" ["GET"] 7%nat VNone
           DNone Ex.st); reflexivity.
Defined.

Lemma added_views_cons c cs : added_views (c :: cs) = added_views [c] ++ added_views cs.
Proof. unfold added_views. simpl. by rewrite app_nil_r. Qed.

Section Registered.

Variable call : nat -> request -> gmap string value -> result value.
Variable check_csrf : request -> nat -> value.
Variable from_orm : decl -> value -> result value.
Variable signature_models : string -> nat -> list ParamModel.
Variable signature_is_async : nat -> bool.
Variable django_VERSION : Z * Z.

Local Abbreviation step :=
  (pv_step call check_csrf from_orm signature_models signature_is_async
     django_VERSION).

Lemma pv_step_flag_eq s c :
  pv_is_async (step s c).1
  = pv_is_async s.1 || existsb signature_is_async (added_views [c]).
Proof.
  destruct s as [self st].
  destruct c as [pa ms vf au rp|a| |a kw|a kw| |i c]; simpl;
    rewrite ?orb_false_r; try done.
  - rewrite add_pv_is_async. apply orb_comm.
  - by destruct (operations self !! i).
Qed.

Lemma pv_steps_flag_eq cs s :
  pv_is_async (foldl step s cs).1
  = pv_is_async s.1 || existsb signature_is_async (added_views cs).
Proof.
  revert s. induction cs as [|c cs IH]; intros s.
  - simpl. by rewrite orb_false_r.
  - simpl foldl. rewrite IH, pv_step_flag_eq.
    by rewrite (added_views_cons c cs), existsb_app, orb_assoc.
Qed.

Lemma pv_step_operation_flags s c :
  django_too_old django_VERSION = false ->
  map is_async (operations (step s c).1)
  = map is_async (operations s.1) ++ map signature_is_async (added_views [c]).
Proof.
  intros Hdj. destruct s as [self st].
  destruct c as [pa ms vf au rp|a| |a kw|a kw| |i c];
    try (simpl; by rewrite app_nil_r).
  - simpl.
    destruct (add_eq signature_models signature_is_async django_VERSION
                self pa ms vf au rp st (fun _ => Hdj))
      as (op & st' & -> & Hfl & _). simpl.
    rewrite map_app. simpl. by rewrite Hfl.
  - simpl. rewrite app_nil_r, map_map. apply map_ext. intros op.
    apply set_api_instance_is_async.
  - change (step (self, st) (Call_operation i c))
      with (match operations self !! i with
            | Some operation =>
                let r := op_step call check_csrf from_orm (operation, st) c in
                (mkPathView (<[i := r.1]> (operations self)) (pv_is_async self)
                   (pv_api self), r.2)
            | None => (self, st)
            end).
    destruct (operations self !! i) as [o|] eqn:Hi;
      [|simpl; by rewrite app_nil_r].
    pose proof (op_step_is_async call check_csrf from_orm (o, st) c) as Hfl.
    remember (op_step call check_csrf from_orm (o, st) c) as r eqn:Hr.
    simpl in *. rewrite app_nil_r.
    change (map is_async (<[i:=r.1]> (operations self)))
      with (is_async <$> <[i:=r.1]> (operations self)).
    rewrite list_fmap_insert, Hfl.
    apply list_insert_id. by rewrite list_lookup_fmap, Hi.
Qed.

Lemma pv_steps_operation_flags cs s :
  django_too_old django_VERSION = false ->
  map is_async (operations (foldl step s cs).1)
  = map is_async (operations s.1) ++ map signature_is_async (added_views cs).
Proof.
  intros Hdj. revert s. induction cs as [|c cs IH]; intros s.
  - simpl. by rewrite app_nil_r.
  - simpl foldl. rewrite IH, pv_step_operation_flags by done.
    by rewrite (added_views_cons c cs), map_app, app_assoc.
Qed.

End Registered.

Lemma existsb_map {A B} (f : A -> B) (g : B -> bool) l :
  existsb g (map f l) = existsb (fun x => g (f x)) l.
Proof. induction l as [|x l IH]; [done|]. simpl. by rewrite IH. Qed.

(** X15: after any sequence of calls on a new path view, the path view is
    marked asynchronous exactly when one of the handlers passed to [add] was
    asynchronous, and [get_view] hands out the asynchronous view in that
    case and the synchronous one otherwise, always marked [csrf_exempt].
    On Django 3.1 or later the operations owned are one per [add], in order,
    each with the flag of its handler, so the mark is the disjunction of the
    flags of the owned operations. *)
Theorem path_view_flag_is_or_of_handlers call check_csrf from_orm
    signature_models signature_is_async django_VERSION
    (cs : list pv_call) st :
  let pv :=
    (foldl (pv_step call check_csrf from_orm signature_models
              signature_is_async django_VERSION) (PathView_init, st) cs).1 in
  pv_is_async pv = existsb signature_is_async (added_views cs)
  /\ get_view pv
     = (if existsb signature_is_async (added_views cs)
        then the_async_view else the_sync_view, true)
  /\ (django_too_old django_VERSION = false ->
      map is_async (operations pv) = map signature_is_async (added_views cs)
      /\ pv_is_async pv = existsb is_async (operations pv)).
Proof.
  intros pv.
  assert (Hflag : pv_is_async pv = existsb signature_is_async (added_views cs)).
  { unfold pv. by rewrite pv_steps_flag_eq. }
  split; [done|]. split; [unfold get_view; by rewrite Hflag|].
  intros Hdj.
  assert (Hops : map is_async (operations pv)
                 = map signature_is_async (added_views cs)).
  { unfold pv. by rewrite pv_steps_operation_flags. }
  split; [done|]. rewrite Hflag.
  transitivity (existsb (fun b : bool => b) (map is_async (operations pv))).
  - rewrite Hops. symmetry.
    apply (existsb_map signature_is_async (fun b : bool => b)).
  - apply (existsb_map is_async (fun b : bool => b)).
Qed.

Lemma path_view_flag_is_or_of_handlers_witness :
  map is_async
    (operations
       (foldl (pv_step Ex.call Ex.check_csrf Ex.from_orm Ex.no_models
                 Ex.is_async_view Ex.django_VERSION) (PathView_init, Ex.st)
          [Call_add "/items" ["GET"] 3%nat VNone DNone;
           Call_pv_set_api_instance Ex.the_api;
           Call_add "/items" ["POST"] 7%nat VNone DNone]).1)
  = [false; true].
Proof.
  apply (proj2 (proj2 (path_view_flag_is_or_of_handlers Ex.call Ex.check_csrf
           Ex.from_orm Ex.no_models Ex.is_async_view Ex.django_VERSION
           [Call_add "/items" ["GET"] 3%nat VNone DNone;
            Call_pv_set_api_instance Ex.the_api;
            Call_add "/items" ["POST"] 7%nat VNone DNone] Ex.st))).
  reflexivity.
Defined.

Lemma set_api_instance_methods self a : methods (set_api_instance self a) = methods self.
Proof.
  unfold set_api_instance. destruct (_ && _); [|done].
  unfold _set_auth. by destruct (_ && _).
Qed.

Lemma _find_operation_loop_bound ops a m allowed_methods :
  _find_operation_loop (map (fun op => set_api_instance op a) ops) m allowed_methods
  = ((fun op => set_api_instance op a) <$> (_find_operation_loop ops m allowed_methods).1,
     (_find_operation_loop ops m allowed_methods).2).
Proof.
  revert allowed_methods. induction ops as [|o ops IH]; intros acc; [done|].
  simpl. rewrite set_api_instance_methods.
  destruct (contains (methods o) m); [done|]. apply IH.
Qed.

(** X16: binding a path view to an application binds every operation it
    owns at that moment and nothing else: each owned operation has the
    application afterwards, the mark and the number of operations are
    unchanged, and dispatch finds, for every request, the bound form of the
    operation it found before, or the same 405 response. *)
Theorem path_view_binding (self : PathView) (a : NinjaAPI) st :
  (forall op, op ∈ operations (pv_set_api_instance self a) -> api op = Some a)
  /\ pv_api (pv_set_api_instance self a) = Some a
  /\ pv_is_async (pv_set_api_instance self a) = pv_is_async self
  /\ length (operations (pv_set_api_instance self a)) = length (operations self)
  /\ _find_operation (pv_set_api_instance self a) st
     = (Ok ((fun op => set_api_instance op a)
              <$> (_find_operation_loop (operations self) (method (req st)) ∅).1,
            (_find_operation_loop (operations self) (method (req st)) ∅).2), st)
  /\ _find_operation self st
     = (Ok (_find_operation_loop (operations self) (method (req st)) ∅), st).
Proof.
  split; [|split; [done|split; [done|split; [|split]]]].
  - intros op (o & -> & _)%list_elem_of_fmap.
    unfold set_api_instance. destruct (_ && _); [|done].
    unfold _set_auth. by destruct (_ && _).
  - simpl. apply length_map.
  - unfold _find_operation, bind, get_request, ret. simpl.
    by rewrite _find_operation_loop_bound.
  - done.
Qed.

Lemma dispatch_is_exclusive_witness :
  _find_operation PathView_init Ex.st
  = (Ok (None, VHttpResponseNotAllowed ∅ "Method not allowed"), Ex.st).
Proof. apply (proj2 (dispatch_is_exclusive PathView_init Ex.st)). reflexivity. Defined.

Lemma path_view_binding_witness :
  api (set_api_instance (Ex.op 3 (VList []) [] DNone) Ex.csrf_api)
  = Some Ex.csrf_api.
Proof.
  apply (proj1 (path_view_binding Ex.two_ops Ex.csrf_api Ex.st)).
  apply list_elem_of_here.
Defined.
